(** * Chat middleware chain (chats/middleware.py, settings.py)

    A shallow embedding of the four request interceptors of the chat
    application and of the part of the Django environment they touch:
    the request object, the wall clock, the [request_logger] sinks and
    the cache that holds the per-client rate-limit buckets.

    Conventions.
    - An instant is an integer number of microseconds since the epoch
      (the resolution of Python's [datetime]); [timedelta seconds] is the
      matching duration.
    - Every call that reads the wall clock ([timezone.now()],
      [timezone.localtime()], the cache backend's [time.time()]) consumes
      one reading of the clock oracle carried by the world, in program
      order.
    - Datetimes are aware ([USE_TZ]), as [timezone.localtime()] needs
      them: [timezone.now()] is the instant in UTC, and the configured
      time zone enters as its UTC offset.
    - A Python exception is a [Raised] result; the world at the point of
      the raise is kept.
    - A string is a sequence of characters below 256, which is what the
      values of [request.META] are (header bytes read as Latin-1). *)

From Stdlib Require Import ZArith String Ascii List Bool Lia.
From stdpp Require Import base option gmap strings list.

Local Open Scope Z_scope.

(* ===================================================================== *)
(** ** Python strings *)
(* ===================================================================== *)

Module Py.

(** [s.startswith(p)]. *)
Fixpoint startswith (s p : string) {struct p} : bool :=
  match p with
  | EmptyString => true
  | String c p' =>
      match s with
      | EmptyString => false
      | String d s' => Ascii.eqb c d && startswith s' p'
      end
  end.

(** [s.startswith((p1, p2, ...))]: a tuple of prefixes. *)
Definition startswith_any (s : string) (ps : list string) : bool :=
  existsb (startswith s) ps.

(** [s.split(sep)[0]] for a one-character separator: the text before the
    first occurrence of [sep] (the whole string when there is none). *)
Fixpoint split_head (sep : ascii) (s : string) : string :=
  match s with
  | EmptyString => EmptyString
  | String c s' => if Ascii.eqb c sep then EmptyString else String c (split_head sep s')
  end.

(** The characters below 256 for which [str.isspace()] holds: tab to
    carriage return, the four separators, the space, NEL (U+0085) and
    the no-break space (U+00A0). *)
Definition isspace (c : ascii) : bool :=
  let n := nat_of_ascii c in
  ((9 <=? n) && (n <=? 13) || (28 <=? n) && (n <=? 32) || (n =? 133) || (n =? 160))%nat.

Fixpoint lstrip (s : string) : string :=
  match s with
  | EmptyString => EmptyString
  | String c s' => if isspace c then lstrip s' else s
  end.

Fixpoint rstrip (s : string) : string :=
  match s with
  | EmptyString => EmptyString
  | String c s' =>
      match rstrip s' with
      | EmptyString => if isspace c then EmptyString else String c EmptyString
      | r => String c r
      end
  end.

(** [s.strip()]. *)
Definition strip (s : string) : string := rstrip (lstrip s).

(** Truthiness of a string: non-empty. *)
Definition truthy (s : string) : bool :=
  match s with EmptyString => false | _ => true end.

(** One decimal digit. *)
Definition digit (n : Z) : ascii := ascii_of_nat (48 + Z.to_nat (n mod 10)).

(** A non-negative number printed in decimal on exactly [width] digits
    (the low-order ones), zero padded: [%02d], [%04d]. *)
Fixpoint zero_padded (width : nat) (n : Z) : string :=
  match width with
  | O => EmptyString
  | S w => zero_padded w (n / 10) +:+ String (digit n) EmptyString
  end.

End Py.

(* ===================================================================== *)
(** ** Instants, durations and broken-down time *)
(* ===================================================================== *)

Module Time.

(** [timedelta(seconds=s)] in microseconds. *)
Definition timedelta (seconds : Z) : Z := seconds * 1000000.

(** The fields of a [datetime] that [strftime] and [.hour] read. *)
Record fields := Fields {
  year : Z; month : Z; day : Z; hour : Z; minute : Z; second : Z
}.

(** Proleptic Gregorian date of a day number counted from 1970-01-01. *)
Definition civil_from_days (days : Z) : Z * Z * Z :=
  let z := days + 719468 in
  let era := z / 146097 in
  let doe := z - era * 146097 in
  let yoe := (doe - doe / 1460 + doe / 36524 - doe / 146096) / 365 in
  let doy := doe - (365 * yoe + yoe / 4 - yoe / 100) in
  let mp := (5 * doy + 2) / 153 in
  let d := doy - (153 * mp + 2) / 5 + 1 in
  let m := if mp <? 10 then mp + 3 else mp - 9 in
  let y := yoe + era * 400 + (if m <=? 2 then 1 else 0) in
  (y, m, d).

(** The broken-down fields of instant [t] at UTC offset [offset]
    (both in microseconds). *)
Definition fields_at (offset t : Z) : fields :=
  let secs := (t + offset) / 1000000 in
  let sod := secs mod 86400 in
  let '(y, m, d) := civil_from_days (secs / 86400) in
  {| year := y; month := m; day := d;
     hour := sod / 3600; minute := (sod mod 3600) / 60; second := sod mod 60 |}.

(** [dt.strftime(fmt)] for the directives %Y %m %d %H %M %S; every other
    character is copied. *)
Fixpoint strftime_fields (f : fields) (fmt : string) : string :=
  match fmt with
  | String "%" (String d rest) =>
      let out :=
        if Ascii.eqb d "Y" then Py.zero_padded 4 (year f)
        else if Ascii.eqb d "m" then Py.zero_padded 2 (month f)
        else if Ascii.eqb d "d" then Py.zero_padded 2 (day f)
        else if Ascii.eqb d "H" then Py.zero_padded 2 (hour f)
        else if Ascii.eqb d "M" then Py.zero_padded 2 (minute f)
        else if Ascii.eqb d "S" then Py.zero_padded 2 (second f)
        else String "%" (String d EmptyString) in
      out +:+ strftime_fields f rest
  | String c rest => String c (strftime_fields f rest)
  | EmptyString => EmptyString
  end.

(** [timezone.now()] is an aware datetime in UTC; this is its [strftime]. *)
Definition strftime (t : Z) (fmt : string) : string :=
  strftime_fields (fields_at 0 t) fmt.

End Time.

(* ===================================================================== *)
(** ** Requests, responses, users *)
(* ===================================================================== *)

(** [request.user] once authentication has attached one: a [User] row or
    an [AnonymousUser] (whose [is_authenticated] is [False]). [groups]
    lists the names of the groups the user belongs to. *)
Record User := {
  username : string;
  is_authenticated : bool;
  is_superuser : bool;
  groups : list string
}.

(** The parts of [HttpRequest] the middleware reads. [user] is [None]
    when the request has no [user] attribute. *)
Record Request := {
  method : string;
  path : string;
  META : gmap string string;
  user : option User
}.

Record HttpResponse := {
  status_code : Z;
  content : string
}.

Definition HttpResponseForbidden (body : string) : HttpResponse :=
  {| status_code := 403; content := body |}.

(** A raised Python exception, by class name. *)
Inductive Exn := Exception (name : string).

Inductive Result (A : Type) :=
| Raised (e : Exn)
| Returned (a : A).
Arguments Raised {A} e.
Arguments Returned {A} a.

(* ===================================================================== *)
(** ** The cache ([django.core.cache]) *)
(* ===================================================================== *)

(** The dict kept per client: [{"count": ..., "reset_at": ...}]. *)
Record Bucket := {
  count : Z;
  reset_at : Z
}.

(** What the middleware needs from a cache backend. Both operations get
    the backend's own reading of the clock; [backend_set] gets the
    timeout in seconds. A miss is [None]. *)
Class BaseCache (St : Type) := {
  backend_get : string -> Z -> St -> Exn + (option Bucket * St);
  backend_set : string -> Bucket -> Z -> Z -> St -> Exn + St
}.

(** The local-memory backend, which Django uses when the settings name
    no [CACHES] (as here). It keeps an ordered dict of the values and a
    dict of the expiry instants; here both are one list of
    (key, (value, expiry)), in the order of the ordered dict: the head
    is the entry used last, the tail end the least recently used one.
    Values are stored pickled, so what [get] returns is a copy and the
    [+= 1] of the middleware acts on the request's own dict. The
    operations do not raise. Keys are stored under a version prefix,
    the same for all, which is left out. *)
Record LocMemState := LocMem {
  items : list (string * (Bucket * Z))
}.

(** [MAX_ENTRIES] and [CULL_FREQUENCY]: Django's defaults, the settings
    giving no [OPTIONS]. *)
Definition MAX_ENTRIES : nat := 300.
Definition CULL_FREQUENCY : nat := 3.

Fixpoint items_lookup (key : string) (l : list (string * (Bucket * Z)))
  : option (Bucket * Z) :=
  match l with
  | [] => None
  | (k, v) :: l' => if String.eqb k key then Some v else items_lookup key l'
  end.

(** [del self._cache[key]]. *)
Definition items_remove (key : string) (l : list (string * (Bucket * Z)))
  : list (string * (Bucket * Z)) :=
  List.filter (fun kv => negb (String.eqb (fst kv) key)) l.

#[export] Instance LocMem_lookup : Lookup string (Bucket * Z) LocMemState :=
  fun key s => items_lookup key (items s).

#[export] Instance LocMem_empty : Empty LocMemState := LocMem [].

#[export] Instance LocMem_singleton : SingletonM string (Bucket * Z) LocMemState :=
  fun key v => LocMem [(key, v)].

(** [_cull]: with a cull frequency of 0 everything goes; otherwise
    [len // CULL_FREQUENCY] entries are popped from the least recently
    used end. *)
Definition LocMem_cull (l : list (string * (Bucket * Z)))
  : list (string * (Bucket * Z)) :=
  if (CULL_FREQUENCY =? 0)%nat then []
  else firstn (length l - length l / CULL_FREQUENCY) l.

(** [get]: a key that is missing, or whose expiry is not after the
    current time, is deleted and reads as a miss; a hit moves the entry
    to the front. *)
Definition LocMem_get (key : string) (t : Z) (s : LocMemState)
  : Exn + (option Bucket * LocMemState) :=
  match s !! key with
  | Some (v, exp) =>
      if exp <=? t then inr (None, LocMem (items_remove key (items s)))
      else inr (Some v, LocMem ((key, (v, exp)) :: items_remove key (items s)))
  | None => inr (None, s)
  end.

(** [set]: once the store holds [MAX_ENTRIES] keys it culls first, then
    the entry is written and moved to the front, with the expiry
    [timeout] seconds after the current time. *)
Definition LocMem_set (key : string) (v : Bucket) (timeout t : Z) (s : LocMemState)
  : Exn + LocMemState :=
  let l := if (MAX_ENTRIES <=? length (items s))%nat
           then LocMem_cull (items s) else items s in
  inr (LocMem ((key, (v, t + Time.timedelta timeout)) :: items_remove key l)).

#[export] Instance LocMemCache : BaseCache LocMemState := {
  backend_get := LocMem_get;
  backend_set := LocMem_set
}.

(** A remote backend whose server cannot be reached: every operation
    raises. *)
#[export] Instance UnreachableCache : BaseCache unit := {
  backend_get := fun _ _ _ => inl (Exception "ConnectionError");
  backend_set := fun _ _ _ _ _ => inl (Exception "ConnectionError")
}.

(* ===================================================================== *)
(** ** The world and the effects of a handler *)
(* ===================================================================== *)

(** [cache]: the state of the configured backend. [request_file] and
    [console]: the lines received by the two handlers of the
    [request_logger] logger (settings.LOGGING), oldest first. [clock]
    and [ticks]: the wall clock as an oracle, reading number [ticks]
    being the next one. *)
Record World (St : Type) := {
  cache : St;
  request_file : list string;
  console : list string;
  clock : nat -> Z;
  ticks : nat
}.
Arguments cache {St} w.
Arguments request_file {St} w.
Arguments console {St} w.
Arguments clock {St} w.
Arguments ticks {St} w.

Definition M (St A : Type) : Type := World St -> Result A * World St.

Definition ret {St A} (a : A) : M St A := fun w => (Returned a, w).

Definition bind {St A B} (c : M St A) (k : A -> M St B) : M St B :=
  fun w =>
    match c w with
    | (Returned a, w') => k a w'
    | (Raised e, w') => (Raised e, w')
    end.

Notation "'let*' x ':=' c 'in' k" := (bind c (fun x => k))
  (at level 10, x name, c at level 100, k at level 200).

Section Effects.
Context {St : Type} `{BaseCache St}.

Definition with_cache (s : St) (w : World St) : World St :=
  {| cache := s; request_file := request_file w; console := console w;
     clock := clock w; ticks := ticks w |}.

Definition tick (w : World St) : World St :=
  {| cache := cache w; request_file := request_file w; console := console w;
     clock := clock w; ticks := Datatypes.S (ticks w) |}.

(** The next clock reading. *)
Definition read_clock : M St Z := fun w => (Returned (clock w (ticks w)), tick w).

(** [timezone.now()]. *)
Definition timezone_now : M St Z := read_clock.

(** [cache.get(key, default)]. *)
Definition cache_get (key : string) (default : Bucket) : M St Bucket :=
  let* t := read_clock in
  fun w =>
    match backend_get key t (cache w) with
    | inl e => (Raised e, w)
    | inr (Some v, s) => (Returned v, with_cache s w)
    | inr (None, s) => (Returned default, with_cache s w)
    end.

(** [cache.set(key, value, timeout)]. *)
Definition cache_set (key : string) (value : Bucket) (timeout : Z) : M St unit :=
  let* t := read_clock in
  fun w =>
    match backend_set key value timeout t (cache w) with
    | inl e => (Raised e, w)
    | inr s => (Returned tt, with_cache s w)
    end.

(** [logger.info(msg)] on the [request_logger] logger: level INFO, no
    propagation, handlers [request_file] and [console]; each handler
    writes the message as one line. *)
Definition logger_info (msg : string) : M St unit :=
  fun w =>
    (Returned tt,
     {| cache := cache w;
        request_file := request_file w ++ [msg];
        console := console w ++ [msg];
        clock := clock w; ticks := ticks w |}).

End Effects.

(* ===================================================================== *)
(** ** chats/middleware.py *)
(* ===================================================================== *)

(** What Django answers for an uncaught exception
    ([response_for_exception]: the 500 page, or the page of the
    exception's own class); it depends on settings and templates that
    are not part of the repository. *)
Class ErrorPages := {
  response_for_exception : Exn -> HttpResponse
}.

Section Chats.
Context {St : Type} `{BaseCache St} `{ErrorPages}.

(** The UTC offset (microseconds) of the configured time zone at a
    given instant: [settings.TIME_ZONE]. *)
Variable utcoffset : Z -> Z.

(** What [get_response] is: the rest of the chain. *)
Definition Handler : Type := Request -> M St HttpResponse.

(** [timezone.localtime()]: the current instant, broken down in the
    configured time zone. *)
Definition timezone_localtime : M St Time.fields :=
  let* t := read_clock in
  ret (Time.fields_at (utcoffset t) t).

(** Best-effort client IP extraction. *)
Definition _get_client_ip (request : Request) : string :=
  let xff := META request !! "HTTP_X_FORWARDED_FOR" in
  if from_option Py.truthy false xff
  then Py.strip (Py.split_head "," (default EmptyString xff))
  else default "0.0.0.0"%string (META request !! "REMOTE_ADDR").

(** *** RequestLoggingMiddleware *)

(** The [user] part of the log line. *)
Definition log_user (request : Request) : string :=
  match user request with
  | Some u => if is_authenticated u then username u else "anonymous"
  | None => "anonymous"
  end.

Definition RequestLoggingMiddleware (get_response : Handler) : Handler :=
  fun request =>
    let user := log_user request in
    let* now := timezone_now in
    let ts := Time.strftime now "%Y-%m-%d %H:%M:%S" in
    let* _ := logger_info (ts +:+ " - User: " +:+ user +:+ " - Path: " +:+ path request) in
    get_response request.

(** *** RestrictAccessByTimeMiddleware *)

Definition START_HOUR : Z := 6.   (* 06:00 inclusive *)
Definition END_HOUR : Z := 21.    (* 21:00 exclusive *)

(** [allowed = START_HOUR <= hour < END_HOUR]. *)
Definition allowed (hour : Z) : bool :=
  (START_HOUR <=? hour) && (hour <? END_HOUR).

Definition RestrictAccessByTimeMiddleware (get_response : Handler) : Handler :=
  fun request =>
    let* now := timezone_localtime in
    let hour := Time.hour now in
    if negb (allowed hour)
    then ret (HttpResponseForbidden "Chat is closed. Please come back during allowed hours.")
    else get_response request.

(** *** OffensiveLanguageMiddleware: the per-IP rate limit *)

Definition WINDOW_SECONDS : Z := 60.
Definition MAX_MESSAGES : Z := 5.
Definition SCOPE_PREFIX : string := "chat_rate_".

(** The guard of line 73: a POST to a chats endpoint. *)
Definition rate_limited (request : Request) : bool :=
  String.eqb (method request) "POST" && Py.startswith (path request) "/chats".

(** The cache key of the request's client. *)
Definition rate_key (request : Request) : string :=
  SCOPE_PREFIX +:+ _get_client_ip request.

Definition OffensiveLanguageMiddleware (get_response : Handler) : Handler :=
  fun request =>
    if rate_limited request then
      let ip := _get_client_ip request in
      let key := SCOPE_PREFIX +:+ ip in
      let* now0 := timezone_now in
      let* bucket :=
        cache_get key {| count := 0; reset_at := now0 + Time.timedelta WINDOW_SECONDS |} in
      (* Reset window if expired *)
      let* now1 := timezone_now in
      let* bucket :=
        if now1 >=? reset_at bucket
        then (let* now2 := timezone_now in
              ret {| count := 0; reset_at := now2 + Time.timedelta WINDOW_SECONDS |})
        else ret bucket in
      let bucket := {| count := count bucket + 1; reset_at := reset_at bucket |} in
      if count bucket >? MAX_MESSAGES then
        let* _ := cache_set key bucket WINDOW_SECONDS in   (* maintain window *)
        ret (HttpResponseForbidden "Rate limit exceeded: max 5 messages per minute.")
      else
        let* _ := cache_set key bucket WINDOW_SECONDS in
        get_response request
    else get_response request.

(** The two halves of the rate limiter, cut between its two accesses
    to the store: lines 74 to 76, which end with [cache.get], and lines
    79 to 87, which hold [cache.set]. Each access is atomic in the
    backend; the cut is where another request can come in between. *)
Definition olm_read (request : Request) : M St Bucket :=
  let ip := _get_client_ip request in
  let key := SCOPE_PREFIX +:+ ip in
  let* now0 := timezone_now in
  cache_get key {| count := 0; reset_at := now0 + Time.timedelta WINDOW_SECONDS |}.

Definition olm_write (get_response : Handler) (request : Request) (bucket : Bucket)
  : M St HttpResponse :=
  let ip := _get_client_ip request in
  let key := SCOPE_PREFIX +:+ ip in
  let* now1 := timezone_now in
  let* bucket :=
    if now1 >=? reset_at bucket
    then (let* now2 := timezone_now in
          ret {| count := 0; reset_at := now2 + Time.timedelta WINDOW_SECONDS |})
    else ret bucket in
  let bucket := {| count := count bucket + 1; reset_at := reset_at bucket |} in
  if count bucket >? MAX_MESSAGES then
    let* _ := cache_set key bucket WINDOW_SECONDS in
    ret (HttpResponseForbidden "Rate limit exceeded: max 5 messages per minute.")
  else
    let* _ := cache_set key bucket WINDOW_SECONDS in
    get_response request.

(** *** RolepermissionMiddleware *)

Definition PROTECTED_PREFIXES : list string :=
  ["/chats/admin"; "/chats/moderate"]%string.

(** [user.groups.filter(name__in=names).exists()]. *)
Definition groups_filter_exists (u : User) (names : list string) : bool :=
  existsb (fun g => existsb (String.eqb g) names) (groups u).

(** [user and user.is_authenticated and (user.is_superuser or ...)],
    as a truth value. *)
Definition is_allowed (user : option User) : bool :=
  match user with
  | Some u =>
      is_authenticated u
      && (is_superuser u || groups_filter_exists u ["admin"; "moderator"]%string)
  | None => false
  end.

Definition RolepermissionMiddleware (get_response : Handler) : Handler :=
  fun request =>
    if Py.startswith_any (path request) PROTECTED_PREFIXES then
      let user := user request in
      if negb (is_allowed user)
      then ret (HttpResponseForbidden "Forbidden: admin/moderator role required.")
      else get_response request
    else get_response request.

(** *** settings.MIDDLEWARE *)

(** The four chats entries of [MIDDLEWARE], in the order of the
    setting; the entries listed after them and the view are the
    [get_response] the chain is built around. *)
Definition MIDDLEWARE : list (Handler -> Handler) :=
  [RequestLoggingMiddleware;
   RestrictAccessByTimeMiddleware;
   OffensiveLanguageMiddleware;
   RolepermissionMiddleware].

(** [convert_exception_to_response]: an exception that leaves the
    wrapped handler becomes the response Django builds for it. *)
Definition convert_exception_to_response (get_response : Handler) : Handler :=
  fun request w =>
    match get_response request w with
    | (Raised e, w') => (Returned (response_for_exception e), w')
    | (Returned response, w') => (Returned response, w')
    end.

(** Django builds the chain from the last entry inwards, so the first
    entry is the outermost layer, and wraps every layer in
    [convert_exception_to_response]. [get_response] is the handler
    built in the same way for the entries after the four. *)
Definition load_middleware (mws : list (Handler -> Handler)) (get_response : Handler)
  : Handler :=
  fold_right (fun mw handler => convert_exception_to_response (mw handler))
    get_response mws.

Definition chain (get_response : Handler) : Handler :=
  load_middleware MIDDLEWARE get_response.

(** *** Outcomes of one layer

    A layer [forwards] when its result is whatever the rest of the
    chain returns, run in world [w']; it [rejects] when it answers by
    itself; it [raises] when an exception leaves it. In the last two
    cases the rest of the chain has no part in the result. *)
Definition forwards (mw : Handler -> Handler) (request : Request)
  (w w' : World St) : Prop :=
  forall get_response, mw get_response request w = get_response request w'.

Definition rejects (mw : Handler -> Handler) (request : Request)
  (w : World St) (response : HttpResponse) (w' : World St) : Prop :=
  forall get_response, mw get_response request w = (Returned response, w').

Definition raises (mw : Handler -> Handler) (request : Request)
  (w : World St) (e : Exn) (w' : World St) : Prop :=
  forall get_response, mw get_response request w = (Raised e, w').

(** The chain built by [load_middleware] [hands_on] a request when its
    result is that of the rest of the chain, run in world [w'], with an
    exception of the rest turned into its response. *)
Definition hands_on (mw : Handler -> Handler) (request : Request)
  (w w' : World St) : Prop :=
  forall get_response,
    mw get_response request w = convert_exception_to_response get_response request w'.

(** *** Requests in flight

    A request in the rate limiter is [Waiting] before line 74,
    [Holding] the bucket it has read between [cache.get] and line 79,
    and [Finished] with its result. A request outside the scope of the
    limiter goes to the rest of the chain in one step. *)
Inductive Thread :=
| Waiting (request : Request)
| Holding (request : Request) (bucket : Bucket)
| Finished (result : Result HttpResponse).

Definition step_thread (get_response : Handler) (t : Thread) (w : World St)
  : Thread * World St :=
  match t with
  | Waiting request =>
      if rate_limited request then
        match olm_read request w with
        | (Returned bucket, w') => (Holding request bucket, w')
        | (Raised e, w') => (Finished (Raised e), w')
        end
      else
        let rw := get_response request w in (Finished (fst rw), snd rw)
  | Holding request bucket =>
      let rw := olm_write get_response request bucket w in (Finished (fst rw), snd rw)
  | Finished _ => (t, w)
  end.

(** The requests take their steps in the order of [schedule], a list of
    positions in [threads]. *)
Fixpoint run_schedule (get_response : Handler) (schedule : list nat)
  (threads : list Thread) (w : World St) : list Thread * World St :=
  match schedule with
  | [] => (threads, w)
  | i :: rest =>
      match threads !! i with
      | Some t =>
          let tw := step_thread get_response t w in
          run_schedule get_response rest (<[i := fst tw]> threads) (snd tw)
      | None => run_schedule get_response rest threads w
      end
  end.

(** Requests served one after the other by the same handler; each
    entry is the result with the world it left. *)
Fixpoint serve (handler : Handler) (requests : list Request) (w : World St)
  : list (Result HttpResponse * World St) :=
  match requests with
  | [] => []
  | request :: rest =>
      let rw := handler request w in
      rw :: serve handler rest (snd rw)
  end.

End Chats.

(* ===================================================================== *)
(** ** Vocabulary of the statements *)
(* ===================================================================== *)

(** [s] begins with [p]. *)
Definition has_prefix (p s : string) : Prop := exists rest, s = p +:+ rest.

Definition is_digit (c : ascii) : bool :=
  let n := nat_of_ascii c in ((48 <=? n) && (n <=? 57))%nat.

(** [s] matches [pattern], in which a [d] stands for one decimal digit
    and every other character for itself. *)
Fixpoint matches (pattern s : string) : bool :=
  match pattern, s with
  | EmptyString, EmptyString => true
  | String p pattern', String c s' =>
      (if Ascii.eqb p "d" then is_digit c else Ascii.eqb p c) && matches pattern' s'
  | _, _ => false
  end.

(** The state of the local-memory backend. *)
Abbreviation Store := LocMemState.

(** The state the backend is left in by [get] and by [set]. *)
Definition after_get (key : string) (t : Z) (s : Store) : Store :=
  match LocMem_get key t s with
  | inr (_, s') => s'
  | inl _ => s
  end.

Definition after_set (key : string) (v : Bucket) (timeout t : Z) (s : Store) : Store :=
  match LocMem_set key v timeout t s with
  | inr s' => s'
  | inl _ => s
  end.

(** The world a rate-limited request leaves behind when it consumed
    [n] clock readings (the second one by [cache.get], the last one by
    [cache.set]) and wrote bucket [b] under [key]. *)
Definition written (key : string) (b : Bucket) (n : nat) (w : World Store)
  : World Store :=
  {| cache := after_set key b WINDOW_SECONDS (clock w (ticks w + n - 1)%nat)
                (after_get key (clock w (ticks w + 1)%nat) (cache w));
     request_file := request_file w; console := console w;
     clock := clock w; ticks := (ticks w + n)%nat |}.

(** The rate limiter on the local-memory backend, read as a function:
    the bucket [cache.get] hands to a request arriving in world [w] ... *)
Definition seen_bucket (key : string) (w : World Store) : Bucket :=
  let fresh :=
    {| count := 0; reset_at := clock w (ticks w) + Time.timedelta WINDOW_SECONDS |} in
  match cache w !! key with
  | Some (v, expiry) => if expiry <=? clock w (ticks w + 1)%nat then fresh else v
  | None => fresh
  end.

(** ... and the bucket it writes back, with the number of clock
    readings the request consumes. *)
Definition next_bucket (key : string) (w : World Store) : Bucket * nat :=
  let b := seen_bucket key w in
  if clock w (ticks w + 2)%nat >=? reset_at b
  then ({| count := 1;
           reset_at := clock w (ticks w + 3)%nat + Time.timedelta WINDOW_SECONDS |}, 5%nat)
  else ({| count := count b + 1; reset_at := reset_at b |}, 4%nat).

(** The request arriving in world [w] finds no current window for
    [key]: the key is missing, or its entry has outlived its
    time-to-live when [cache.get] looks (second reading), or its
    [reset_at] has passed when line 79 compares (third reading). *)
Definition no_live_window (key : string) (w : World Store) : Prop :=
  match cache w !! key with
  | None => True
  | Some (b, expiry) =>
      expiry <= clock w (ticks w + 1)%nat \/ reset_at b <= clock w (ticks w + 2)%nat
  end.

(** Every stored bucket has counted at least one request and ends one
    window length after a clock reading that has been taken. *)
Definition store_ok (w : World Store) : Prop :=
  forall key b expiry,
    cache w !! key = Some (b, expiry) ->
    1 <= count b /\
    exists i, (i < ticks w)%nat /\ reset_at b = clock w i + Time.timedelta WINDOW_SECONDS.

Section Frames.
Context {St : Type}.

(** The world left by the last of the requests served in a row. *)
Definition serve_end (handler : Request -> M St HttpResponse)
  (requests : list Request) (w : World St) : World St :=
  fold_left (fun w request => snd (handler request w)) requests w.

(** The rest of the chain leaves the cache alone and only consumes
    clock readings. *)
Definition leaves_cache (handler : Request -> M St HttpResponse) : Prop :=
  forall request w,
    cache (snd (handler request w)) = cache w /\
    clock (snd (handler request w)) = clock w /\
    (ticks w <= ticks (snd (handler request w)))%nat.

(** A computation that writes nothing to the [request_logger] sinks. *)
Definition log_stable {A : Type} (c : M St A) : Prop :=
  forall w,
    request_file (snd (c w)) = request_file w /\ console (snd (c w)) = console w.

(** The rest of the chain writes nothing to the [request_logger] sinks. *)
Definition leaves_log (handler : Request -> M St HttpResponse) : Prop :=
  forall request, log_stable (handler request).
End Frames.

(** *** Runs of requests *)

(** The number of entries the local-memory cache holds. *)
Definition entries (s : Store) : nat := length (items s).

(** [request] is counted against the bucket of [ip]. *)
Definition counts_for (ip : string) (request : Request) : bool :=
  rate_limited request && String.eqb (_get_client_ip request) ip.

(** The number of requests counted against [ip] among the first
    [i + 1] of [requests]. *)
Definition rank (ip : string) (requests : list Request) (i : nat) : Z :=
  Z.of_nat (length (List.filter (counts_for ip) (firstn (S i) requests))).

(** The answer of the rate limiter to a request over the limit. *)
Definition is_denial (result : Result HttpResponse) : bool :=
  match result with
  | Returned response =>
      (status_code response =? 403)
      && String.eqb (content response) "Rate limit exceeded: max 5 messages per minute."
  | Raised _ => false
  end.

(** The schedule in which each of [n] requests takes both its steps
    before the next one starts. *)
Definition serial (n : nat) : list nat := flat_map (fun i => [i; i]) (seq 0 n).

(** *** Requests in flight on the local-memory cache *)

(** The world left by the first half of the rate limiter, which takes
    two clock readings, the second one by [cache.get] ... *)
Definition fetched (key : string) (w : World Store) : World Store :=
  {| cache := after_get key (clock w (ticks w + 1)%nat) (cache w);
     request_file := request_file w; console := console w;
     clock := clock w; ticks := (ticks w + 2)%nat |}.

(** ... the bucket the second half writes when it holds [b], with the
    number of clock readings it consumes ... *)
Definition put_bucket (b : Bucket) (w : World Store) : Bucket * nat :=
  if clock w (ticks w) >=? reset_at b
  then ({| count := 1;
           reset_at := clock w (ticks w + 1)%nat + Time.timedelta WINDOW_SECONDS |}, 3%nat)
  else ({| count := count b + 1; reset_at := reset_at b |}, 2%nat).

(** ... and the world it leaves, the last reading being the one of
    [cache.set]. *)
Definition stored (key : string) (b : Bucket) (n : nat) (w : World Store) : World Store :=
  {| cache := after_set key b WINDOW_SECONDS (clock w (ticks w + n - 1)%nat) (cache w);
     request_file := request_file w; console := console w;
     clock := clock w; ticks := (ticks w + n)%nat |}.

(** The bucket held by a request in flight is one that [cache.get] can
    have handed out: a stored one, or the default of line 76. *)
Definition held_ok (w : World Store) (t : Thread) : Prop :=
  match t with
  | Holding _ b =>
      0 <= count b /\
      exists i, (i < ticks w)%nat /\ reset_at b = clock w i + Time.timedelta WINDOW_SECONDS
  | _ => True
  end.

(** The request has been answered by the rate limiter's denial. *)
Definition denied (t : Thread) : bool :=
  match t with
  | Finished result => is_denial result
  | _ => false
  end.

(** *** Characters of a string *)

(** [c in s]. *)
Fixpoint occurs (c : ascii) (s : string) : bool :=
  match s with
  | EmptyString => false
  | String d s' => Ascii.eqb c d || occurs c s'
  end.

(** Every character of [s] is whitespace ([s] may be empty). *)
Fixpoint all_space (s : string) : bool :=
  match s with
  | EmptyString => true
  | String c s' => Py.isspace c && all_space s'
  end.

(** [s[0]] and [s[-1]], when [s] is not empty. *)
Definition head_char (s : string) : option ascii :=
  match s with
  | EmptyString => None
  | String c _ => Some c
  end.

Fixpoint last_char (s : string) : option ascii :=
  match s with
  | EmptyString => None
  | String c EmptyString => Some c
  | String _ s' => last_char s'
  end.

(** *** Sample data *)

(** A view that answers 200 and touches nothing. *)
Definition view_ok {St : Type} : Request -> M St HttpResponse :=
  fun _ => ret {| status_code := 200; content := "OK" |}.

Definition request_of (m p ip : string) (u : option User) : Request :=
  {| method := m; path := p; META := {[ "REMOTE_ADDR"%string := ip ]}; user := u |}.

Definition post_send : Request := request_of "POST" "/chats/send" "10.0.0.7" None.
Definition get_send : Request := request_of "GET" "/chats/send" "10.0.0.7" None.

Definition alice : User :=
  {| username := "alice"; is_authenticated := true; is_superuser := false;
     groups := ["admin"%string] |}.

Definition bob : User :=
  {| username := "bob"; is_authenticated := true; is_superuser := false;
     groups := ["users"%string] |}.

(** A POST that came through a proxy, and one whose forwarded-for
    header starts with a blank entry. *)
Definition forwarded_post : Request :=
  {| method := "POST"; path := "/chats/send";
     META := {[ "HTTP_X_FORWARDED_FOR"%string := " 10.0.0.7 , 172.16.0.1"%string;
                "REMOTE_ADDR"%string := "192.168.1.1"%string ]};
     user := None |}.

Definition blank_forwarded_post : Request :=
  {| method := "POST"; path := "/chats/send";
     META := {[ "HTTP_X_FORWARDED_FOR"%string := " , 10.0.0.7"%string;
                "REMOTE_ADDR"%string := "192.168.1.1"%string ]};
     user := None |}.

(** A forwarded-for header whose first entry is wrapped in a no-break
    space (U+00A0) and a next-line character (U+0085). *)
Definition wrapped_forwarded_post : Request :=
  {| method := "POST"; path := "/chats/send";
     META := {[ "HTTP_X_FORWARDED_FOR"%string :=
                  String (ascii_of_nat 160)
                    ("10.0.0.7" +:+ String (ascii_of_nat 133) ", 172.16.0.1")%string;
                "REMOTE_ADDR"%string := "192.168.1.1"%string ]};
     user := None |}.

(** [n] clients with addresses of their own, each sending one POST. *)
Definition crowd (n : nat) : list Request :=
  map (fun i => request_of "POST" "/chats/send"
                  ("172.16.0." +:+ Py.zero_padded 3 (Z.of_nat i)) None)
      (seq 0 n).

(** Five POSTs of one client, one POST of each of 300 others, and a
    sixth POST of the first. *)
Definition crowded_run : list Request :=
  replicate 5 post_send ++ crowd 300 ++ [post_send].

(** An error page for the examples. *)
#[local] Instance sample_pages : ErrorPages := {
  response_for_exception := fun _ => {| status_code := 500; content := "Server Error (500)" |}
}.

(** A clock that starts at [start] and advances one microsecond per
    reading. *)
Definition world_at {St : Type} (s : St) (start : Z) : World St :=
  {| cache := s; request_file := []; console := [];
     clock := fun n => start + Z.of_nat n; ticks := 0 |}.

(** 2023-11-15 10:00:00 UTC and 2023-11-14 22:00:00 UTC. *)
Definition ten_am : Z := Time.timedelta 1700042400.
Definition ten_pm : Z := Time.timedelta 1699999200.


(* ===================================================================== *)
(** * Properties *)
(* ===================================================================== *)

Example strftime_epoch :
  Time.strftime 0 "%Y-%m-%d %H:%M:%S" = "1970-01-01 00:00:00"%string.
Proof. reflexivity. Qed.

Example strftime_2023 :
  Time.strftime 1700000000123456 "%Y-%m-%d %H:%M:%S" = "2023-11-14 22:13:20"%string.
Proof. vm_compute. reflexivity. Qed.

Example strftime_leap :
  Time.strftime (Time.timedelta 1709251199) "%Y-%m-%d %H:%M:%S" = "2024-02-29 23:59:59"%string.
Proof. vm_compute. reflexivity. Qed.

Example strip_example :
  Py.strip (Py.split_head "," " 10.0.0.7 , 172.16.0.1") = "10.0.0.7"%string.
Proof. reflexivity. Qed.

Example client_ip_prefers_forwarded_for :
  _get_client_ip
    {| method := "POST"; path := "/chats/send";
       META := {[ "HTTP_X_FORWARDED_FOR"%string := " 10.0.0.7 , 172.16.0.1"%string;
                  "REMOTE_ADDR"%string := "192.168.1.1"%string ]};
       user := None |} = "10.0.0.7"%string
  /\ _get_client_ip post_send = "10.0.0.7"%string
  /\ _get_client_ip {| method := "POST"; path := "/chats/send"; META := ∅; user := None |}
     = "0.0.0.0"%string.
Proof. vm_compute. repeat split. Qed.

Example strftime_ten_am :
  Time.strftime ten_am "%Y-%m-%d %H:%M:%S" = "2023-11-15 10:00:00"%string.
Proof. vm_compute. reflexivity. Qed.

Example strftime_ten_pm :
  Time.strftime ten_pm "%Y-%m-%d %H:%M:%S" = "2023-11-14 22:00:00"%string.
Proof. vm_compute. reflexivity. Qed.

Example chain_ten_am :
  let rw := chain (fun _ => 0) view_ok post_send (world_at (∅ : Store) ten_am) in
  fst rw = Returned {| status_code := 200; content := "OK" |} /\
  cache (snd rw) !! "chat_rate_10.0.0.7"%string
    = Some ({| count := 1; reset_at := ten_am + 2 + 60000000 |}, ten_am + 5 + 60000000) /\
  request_file (snd rw)
    = ["2023-11-15 10:00:00 - User: anonymous - Path: /chats/send"%string] /\
  console (snd rw) = request_file (snd rw) /\
  ticks (snd rw) = 6%nat.
Proof. vm_compute. repeat split; reflexivity. Qed.

(* ===================================================================== *)
(** ** Shared lemmas *)
(* ===================================================================== *)

Lemma world_eq {St} (w1 w2 : World St) :
  cache w1 = cache w2 -> request_file w1 = request_file w2 -> console w1 = console w2 ->
  clock w1 = clock w2 -> ticks w1 = ticks w2 -> w1 = w2.
Proof. destruct w1, w2; simpl; intros; subst; reflexivity. Qed.

Lemma ticks_plus {St} (w : World St) :
  S (ticks w) = (ticks w + 1)%nat /\ S (S (ticks w)) = (ticks w + 2)%nat /\
  S (S (S (ticks w))) = (ticks w + 3)%nat.
Proof. lia. Qed.

Lemma startswith_spec (s p : string) : Py.startswith s p = true <-> has_prefix p s.
Proof.
  unfold has_prefix. revert s. induction p as [|c p IH]; intros s; simpl.
  - split; [intros _; exists s; reflexivity | reflexivity].
  - destruct s as [|d s].
    + split; [discriminate | intros [r Hr]; discriminate].
    + rewrite andb_true_iff, Ascii.eqb_eq, IH. split.
      * intros [-> [r ->]]. exists r. reflexivity.
      * intros [r Hr]. injection Hr as -> ->. split; [reflexivity | exists r; reflexivity].
Qed.

Lemma serve_length {St} (handler : @Handler St) requests w :
  length (serve handler requests w) = length requests.
Proof.
  revert w. induction requests as [| r rs IH]; intros w; [reflexivity |].
  cbn [serve length]. rewrite IH. reflexivity.
Qed.

(** The three outcomes of a layer exclude each other. *)
Lemma forwards_not_rejects {St} (mw : @Handler St -> Handler) request w w1 response w2 :
  forwards mw request w w1 -> rejects mw request w response w2 -> False.
Proof.
  intros Hf Hr.
  specialize (Hf (fun _ w => (Raised (Exception "probe"), w))).
  specialize (Hr (fun _ w => (Raised (Exception "probe"), w))).
  rewrite Hf in Hr. discriminate.
Qed.

Lemma forwards_not_raises {St} (mw : @Handler St -> Handler) request w w1 e w2 :
  forwards mw request w w1 -> raises mw request w e w2 -> False.
Proof.
  intros Hf Hr.
  specialize (Hf (@view_ok St)). specialize (Hr (@view_ok St)).
  rewrite Hf in Hr. discriminate.
Qed.

(** *** The local-memory cache *)

Lemma items_lookup_remove_eq key l : items_lookup key (items_remove key l) = None.
Proof.
  induction l as [| [k v] l IH]; [reflexivity |]. cbn [items_remove List.filter fst].
  destruct (String.eqb k key) eqn:E; cbn [negb]; [exact IH |].
  cbn [items_lookup]. rewrite E. exact IH.
Qed.

Lemma items_lookup_remove_ne key key' l :
  key <> key' -> items_lookup key' (items_remove key l) = items_lookup key' l.
Proof.
  intros Hne. induction l as [| [k v] l IH]; [reflexivity |].
  cbn [items_remove List.filter fst]. destruct (String.eqb k key) eqn:E; cbn [negb].
  - apply String.eqb_eq in E. subst k. cbn [items_lookup].
    destruct (String.eqb key key') eqn:E'; [apply String.eqb_eq in E'; congruence | exact IH].
  - cbn [items_lookup]. destruct (String.eqb k key'); [reflexivity | exact IH].
Qed.

Lemma items_lookup_firstn n key l x :
  items_lookup key (firstn n l) = Some x -> items_lookup key l = Some x.
Proof.
  revert n. induction l as [| [k v] l IH]; intros [| n]; cbn [firstn items_lookup];
    try discriminate.
  destruct (String.eqb k key); [auto | apply IH].
Qed.

Lemma items_remove_length key l : (length (items_remove key l) <= length l)%nat.
Proof. apply List.filter_length_le. Qed.

Lemma items_remove_length_lt key l x :
  items_lookup key l = Some x -> (length (items_remove key l) < length l)%nat.
Proof.
  induction l as [| [k v] l IH]; [discriminate |].
  cbn [items_lookup items_remove List.filter fst length].
  destruct (String.eqb k key); cbn [negb length].
  - intros _. pose proof (items_remove_length key l). unfold items_remove in *. lia.
  - intros Hl. specialize (IH Hl). unfold items_remove in *. lia.
Qed.

Lemma LocMem_cull_length l : (length (LocMem_cull l) <= length l)%nat.
Proof.
  unfold LocMem_cull. destruct (CULL_FREQUENCY =? 0)%nat; [cbn; lia |].
  rewrite List.length_firstn. lia.
Qed.

Lemma lookup_after_get_eq key t (s : Store) :
  after_get key t s !! key
  = match s !! key with
    | Some (v, exp) => if exp <=? t then None else Some (v, exp)
    | None => None
    end.
Proof.
  unfold after_get, LocMem_get.
  destruct (s !! key) as [[v exp] |] eqn:Hk; [| exact Hk].
  destruct (exp <=? t); unfold lookup, LocMem_lookup; cbn [items items_lookup].
  - apply items_lookup_remove_eq.
  - rewrite String.eqb_refl. reflexivity.
Qed.

Lemma lookup_after_get_ne key key' t (s : Store) :
  key <> key' -> after_get key t s !! key' = s !! key'.
Proof.
  intros Hne. unfold after_get, LocMem_get.
  destruct (s !! key) as [[v exp] |] eqn:Hk; [| reflexivity].
  destruct (exp <=? t); unfold lookup, LocMem_lookup; cbn [items items_lookup].
  - apply items_lookup_remove_ne, Hne.
  - destruct (String.eqb key key') eqn:E; [apply String.eqb_eq in E; congruence |].
    apply items_lookup_remove_ne, Hne.
Qed.

Lemma entries_after_get key t (s : Store) : (entries (after_get key t s) <= entries s)%nat.
Proof.
  unfold after_get, LocMem_get, entries.
  destruct (s !! key) as [[v exp] |] eqn:Hk; [| lia].
  destruct (exp <=? t); cbn [items length].
  - apply items_remove_length.
  - pose proof (items_remove_length_lt key (items s) _ Hk). lia.
Qed.

Lemma lookup_after_set_eq key v timeout t (s : Store) :
  after_set key v timeout t s !! key = Some (v, t + Time.timedelta timeout).
Proof.
  unfold after_set, LocMem_set, lookup, LocMem_lookup. cbn [items items_lookup].
  rewrite String.eqb_refl. reflexivity.
Qed.

Lemma lookup_after_set_other key key' v timeout t (s : Store) x :
  key <> key' -> after_set key v timeout t s !! key' = Some x -> s !! key' = Some x.
Proof.
  intros Hne. unfold after_set, LocMem_set, lookup, LocMem_lookup. cbn [items items_lookup].
  destruct (String.eqb key key') eqn:E; [apply String.eqb_eq in E; congruence |].
  rewrite items_lookup_remove_ne by exact Hne.
  destruct (MAX_ENTRIES <=? length (items s))%nat; [| auto].
  unfold LocMem_cull. destruct (CULL_FREQUENCY =? 0)%nat; [discriminate |].
  apply items_lookup_firstn.
Qed.

Lemma lookup_after_set_room key key' v timeout t (s : Store) :
  key <> key' -> (entries s < MAX_ENTRIES)%nat ->
  after_set key v timeout t s !! key' = s !! key'.
Proof.
  intros Hne Hroom. unfold after_set, LocMem_set, lookup, LocMem_lookup, entries in *.
  cbn [items items_lookup].
  destruct (String.eqb key key') eqn:E; [apply String.eqb_eq in E; congruence |].
  rewrite items_lookup_remove_ne by exact Hne.
  destruct (MAX_ENTRIES <=? length (items s))%nat eqn:El; [| reflexivity].
  apply Nat.leb_le in El. lia.
Qed.

Lemma entries_after_set key v timeout t (s : Store) :
  (entries (after_set key v timeout t s) <= S (entries s))%nat.
Proof.
  unfold after_set, LocMem_set, entries. cbn [items length].
  pose proof (LocMem_cull_length (items s)).
  destruct (MAX_ENTRIES <=? length (items s))%nat;
    match goal with |- (S (length (items_remove ?k ?l)) <= _)%nat =>
      pose proof (items_remove_length k l) end; lia.
Qed.

(** The two accesses of the rate limiter to the local-memory cache,
    which never fail. *)
Lemma cache_get_LocMem key default (w : World Store) :
  cache_get key default w =
    (Returned (match cache w !! key with
               | Some (v, expiry) => if expiry <=? clock w (ticks w) then default else v
               | None => default
               end),
     with_cache (after_get key (clock w (ticks w)) (cache w)) (tick w)).
Proof.
  unfold cache_get, bind, read_clock. cbn [backend_get LocMemCache tick cache].
  unfold after_get, LocMem_get.
  destruct (cache w !! key) as [[v expiry] |]; [| reflexivity].
  destruct (expiry <=? clock w (ticks w)); reflexivity.
Qed.

Lemma cache_set_LocMem key value timeout (w : World Store) :
  cache_set key value timeout w =
    (Returned tt, with_cache (after_set key value timeout (clock w (ticks w)) (cache w)) (tick w)).
Proof. reflexivity. Qed.

(** *** The rate limiter on the local-memory backend *)

Ltac same_world :=
  apply world_eq;
  cbn [written fetched stored tick ticks clock cache with_cache request_file console];
  first [ reflexivity | lia | (repeat f_equal; lia) ].

Ltac leaf :=
  match goal with
  | |- (if ?c then _ else _) _ = _ => destruct c
  end;
  cbv beta; rewrite cache_set_LocMem;
  cbn [tick ticks clock cache with_cache fst snd count reset_at];
  [ apply (f_equal (pair _)) | apply f_equal ]; same_world.

Lemma olm_read_LocMem request (w : World Store) :
  olm_read request w =
    (Returned (seen_bucket (rate_key request) w), fetched (rate_key request) w).
Proof.
  unfold olm_read, bind, timezone_now, read_clock. rewrite cache_get_LocMem.
  unfold seen_bucket, rate_key. destruct (ticks_plus w) as (E1 & E2 & _).
  cbn [tick ticks clock cache with_cache]. rewrite E1.
  apply f_equal. same_world.
Qed.

Lemma olm_write_LocMem (get_response : Handler) request b (w : World Store) :
  olm_write get_response request b w =
    let key := rate_key request in
    let b' := fst (put_bucket b w) in
    let w' := stored key b' (snd (put_bucket b w)) w in
    if count b' >? MAX_MESSAGES
    then (Returned (HttpResponseForbidden "Rate limit exceeded: max 5 messages per minute."), w')
    else get_response request w'.
Proof.
  unfold olm_write, bind, timezone_now, read_clock, ret, put_bucket, rate_key. cbv zeta.
  destruct (ticks_plus w) as (E1 & E2 & E3).
  destruct (clock w (ticks w) >=? reset_at b) eqn:Hchk;
    cbn [tick ticks clock cache with_cache fst snd count reset_at];
    rewrite ?E1, ?Z.add_0_l; leaf.
Qed.

Lemma OLM_LocMem (get_response : Handler) request (w : World Store) :
  rate_limited request = true ->
  OffensiveLanguageMiddleware get_response request w =
    let key := rate_key request in
    let b := fst (next_bucket key w) in
    let w' := written key b (snd (next_bucket key w)) w in
    if count b >? MAX_MESSAGES
    then (Returned (HttpResponseForbidden "Rate limit exceeded: max 5 messages per minute."), w')
    else get_response request w'.
Proof.
  intros Hrl.
  unfold OffensiveLanguageMiddleware. rewrite Hrl.
  unfold bind at 1. unfold timezone_now at 1. unfold read_clock at 1.
  unfold bind at 1. rewrite cache_get_LocMem.
  unfold bind, timezone_now, read_clock, ret. cbv zeta.
  unfold next_bucket, seen_bucket, rate_key.
  destruct (ticks_plus w) as (E1 & E2 & E3).
  cbn [tick ticks clock cache with_cache fst snd]. rewrite E2, E1.
  set (b := match cache w !! (SCOPE_PREFIX +:+ _get_client_ip request) with
            | Some (v, expiry) => if expiry <=? clock w (ticks w + 1)%nat then _ else v
            | None => _
            end).
  destruct (clock w (ticks w + 2)%nat >=? reset_at b) eqn:Hchk;
    cbn [tick ticks clock cache with_cache fst snd count reset_at];
    rewrite ?E3, ?Z.add_0_l; leaf.
Qed.

Lemma rate_limited_spec (request : Request) :
  rate_limited request = true <->
  method request = "POST"%string /\ has_prefix "/chats" (path request).
Proof.
  unfold rate_limited. rewrite andb_true_iff, String.eqb_eq, startswith_spec. reflexivity.
Qed.

Lemma allowed_spec (h : Z) : allowed h = true <-> 6 <= h < 21.
Proof. unfold allowed, START_HOUR, END_HOUR. lia. Qed.

Lemma time_gate_eq {St} (utcoffset : Z -> Z) (get_response : @Handler St) request w :
  RestrictAccessByTimeMiddleware utcoffset get_response request w =
    let now := clock w (ticks w) in
    if allowed (Time.hour (Time.fields_at (utcoffset now) now))
    then get_response request (tick w)
    else (Returned (HttpResponseForbidden
                      "Chat is closed. Please come back during allowed hours."), tick w).
Proof.
  unfold RestrictAccessByTimeMiddleware, timezone_localtime, bind, read_clock, ret.
  cbv zeta. destruct (allowed _); reflexivity.
Qed.

(* ===================================================================== *)
(** ** The time gate *)
(* ===================================================================== *)

(** C7. The time gate lets a request through exactly when the hour of
    the current local time lies in the half-open interval
    [START_HOUR, END_HOUR), which is [6, 21): hours 6 and 20 pass, hours
    21 and 5 do not, and so for every hour. Outside the interval the
    gate answers 403 itself. *)
Theorem time_gate_half_open_hours {St} (utcoffset : Z -> Z) (request : Request)
  (w : World St) :
  let now := clock w (ticks w) in
  let hour := Time.hour (Time.fields_at (utcoffset now) now) in
  let closed :=
    HttpResponseForbidden "Chat is closed. Please come back during allowed hours." in
  START_HOUR = 6 /\ END_HOUR = 21 /\
  (forall h, allowed h = true <-> START_HOUR <= h < END_HOUR) /\
  allowed 6 = true /\ allowed 20 = true /\ allowed 21 = false /\ allowed 5 = false /\
  ((exists w', forwards (RestrictAccessByTimeMiddleware utcoffset) request w w')
     <-> 6 <= hour < 21) /\
  (rejects (RestrictAccessByTimeMiddleware utcoffset) request w closed (tick w)
     <-> ~ 6 <= hour < 21).
Proof.
  cbv zeta.
  do 2 (split; [reflexivity |]).
  split; [intros h; apply allowed_spec |].
  do 4 (split; [reflexivity |]).
  split; split.
  - intros [w' Hf]. apply allowed_spec.
    destruct (allowed _) eqn:Ha; [reflexivity | exfalso].
    eapply forwards_not_rejects; [exact Hf |].
    intros g. rewrite time_gate_eq. cbv zeta. rewrite Ha. reflexivity.
  - intros Hh. apply allowed_spec in Hh. exists (tick w).
    intros g. rewrite time_gate_eq. cbv zeta. rewrite Hh. reflexivity.
  - intros Hr Hh. apply allowed_spec in Hh.
    eapply forwards_not_rejects; [| exact Hr].
    intros g. rewrite time_gate_eq. cbv zeta. rewrite Hh. reflexivity.
  - intros Hh. rewrite <- allowed_spec in Hh.
    intros g. rewrite time_gate_eq. cbv zeta.
    destruct (allowed _); [exfalso; apply Hh; reflexivity | reflexivity].
Qed.

(** At 10:00 the gate is open, at 22:00 it is closed (UTC as the local
    zone). *)
Lemma time_gate_half_open_hours_witness :
  (exists w', forwards (RestrictAccessByTimeMiddleware (fun _ => 0)) post_send
                (world_at (∅ : Store) ten_am) w') /\
  rejects (RestrictAccessByTimeMiddleware (fun _ => 0)) post_send
    (world_at (∅ : Store) ten_pm)
    (HttpResponseForbidden "Chat is closed. Please come back during allowed hours.")
    (tick (world_at (∅ : Store) ten_pm)).
Proof.
  split.
  - apply (time_gate_half_open_hours (fun _ => 0) post_send (world_at (∅ : Store) ten_am)).
    vm_compute. split; [discriminate | reflexivity].
  - apply (time_gate_half_open_hours (fun _ => 0) post_send (world_at (∅ : Store) ten_pm)).
    vm_compute. intros [_ Hlt]. discriminate Hlt.
Defined.

(* ===================================================================== *)
(** ** The role gate *)
(* ===================================================================== *)

Lemma protected_spec (p : string) :
  Py.startswith_any p PROTECTED_PREFIXES = true <->
  has_prefix "/chats/admin" p \/ has_prefix "/chats/moderate" p.
Proof.
  unfold Py.startswith_any, PROTECTED_PREFIXES. cbn [existsb].
  rewrite !orb_true_iff, !startswith_spec. intuition discriminate.
Qed.

Lemma groups_filter_exists_spec (u : User) :
  groups_filter_exists u ["admin"; "moderator"]%string = true <->
  In "admin"%string (groups u) \/ In "moderator"%string (groups u).
Proof.
  unfold groups_filter_exists. rewrite existsb_exists. split.
  - intros (g & Hin & Hg). cbn [existsb] in Hg.
    rewrite !orb_true_iff, !String.eqb_eq in Hg.
    destruct Hg as [-> | [-> | Hf]]; [left | right | discriminate]; exact Hin.
  - intros [Hin | Hin]; eexists; (split; [exact Hin | reflexivity]).
Qed.

Lemma is_allowed_spec (o : option User) :
  is_allowed o = true <->
  exists u, o = Some u /\ is_authenticated u = true /\
            (is_superuser u = true \/
             In "admin"%string (groups u) \/ In "moderator"%string (groups u)).
Proof.
  unfold is_allowed. destruct o as [u|].
  - rewrite andb_true_iff, orb_true_iff, groups_filter_exists_spec. split.
    + intros [Ha Hp]. exists u. auto.
    + intros (u' & [= <-] & Ha & Hp). auto.
  - split; [discriminate | intros (u & Hu & _); discriminate].
Qed.

Lemma role_gate_eq {St} (get_response : @Handler St) request w :
  RolepermissionMiddleware get_response request w =
    if Py.startswith_any (path request) PROTECTED_PREFIXES && negb (is_allowed (user request))
    then (Returned (HttpResponseForbidden "Forbidden: admin/moderator role required."), w)
    else get_response request w.
Proof.
  unfold RolepermissionMiddleware, ret.
  destruct (Py.startswith_any _ _); [destruct (is_allowed _) |]; reflexivity.
Qed.

(** C8. On a path that starts with "/chats/admin" or "/chats/moderate"
    the role gate lets the request through exactly when the request
    carries a user who is authenticated and is a superuser or belongs to
    the group admin or moderator; otherwise (in particular with no user
    or an unauthenticated one) it answers 403 with the body
    "Forbidden: admin/moderator role required.". On every other path it
    lets the request through. The gate changes nothing in the world. *)
Theorem role_gate_protected_paths {St} (request : Request) (w : World St) :
  let privileged :=
    exists u, user request = Some u /\ is_authenticated u = true /\
              (is_superuser u = true \/
               In "admin"%string (groups u) \/ In "moderator"%string (groups u)) in
  let protected :=
    has_prefix "/chats/admin" (path request) \/ has_prefix "/chats/moderate" (path request) in
  let denial := HttpResponseForbidden "Forbidden: admin/moderator role required." in
  (protected ->
     ((exists w', forwards RolepermissionMiddleware request w w') <-> privileged) /\
     (privileged -> forwards RolepermissionMiddleware request w w) /\
     (~ privileged -> rejects RolepermissionMiddleware request w denial w) /\
     (user request = None -> rejects RolepermissionMiddleware request w denial w) /\
     (forall u, user request = Some u -> is_authenticated u = false ->
                rejects RolepermissionMiddleware request w denial w)) /\
  (~ protected -> forwards RolepermissionMiddleware request w w).
Proof.
  cbv zeta. rewrite <- protected_spec, <- is_allowed_spec.
  assert (Hrej : Py.startswith_any (path request) PROTECTED_PREFIXES = true ->
                 is_allowed (user request) <> true ->
                 rejects RolepermissionMiddleware request w
                   (HttpResponseForbidden "Forbidden: admin/moderator role required.") w).
  { intros Hp Ha g. rewrite role_gate_eq, Hp.
    destruct (is_allowed _); [congruence | reflexivity]. }
  assert (Hfw : is_allowed (user request) = true ->
                forwards RolepermissionMiddleware request w w).
  { intros Ha g. rewrite role_gate_eq, Ha, andb_false_r. reflexivity. }
  split.
  - intros Hp. repeat apply conj.
    + intros [w' Hf]. destruct (is_allowed _) eqn:Ha; [reflexivity | exfalso].
      eapply forwards_not_rejects; [exact Hf | apply Hrej; congruence].
    + intros Ha. exists w. apply Hfw, Ha.
    + exact Hfw.
    + apply Hrej, Hp.
    + intros Hu. apply Hrej; [exact Hp | rewrite Hu; discriminate].
    + intros u Hu Hau. apply Hrej; [exact Hp |].
      rewrite Hu. unfold is_allowed. rewrite Hau. discriminate.
  - intros Hp g. rewrite role_gate_eq.
    destruct (Py.startswith_any _ _); [congruence | reflexivity].
Qed.

(** Alice (group admin) passes on /chats/admin/x, Bob (no privileged
    group) is turned away there, and Bob passes on /chats/messages. *)
Lemma role_gate_protected_paths_witness :
  forwards RolepermissionMiddleware
    (request_of "GET" "/chats/admin/x" "10.0.0.7" (Some alice))
    (world_at (∅ : Store) ten_am) (world_at (∅ : Store) ten_am) /\
  rejects RolepermissionMiddleware
    (request_of "GET" "/chats/admin/x" "10.0.0.7" (Some bob))
    (world_at (∅ : Store) ten_am)
    (HttpResponseForbidden "Forbidden: admin/moderator role required.")
    (world_at (∅ : Store) ten_am) /\
  forwards RolepermissionMiddleware
    (request_of "GET" "/chats/messages" "10.0.0.7" (Some bob))
    (world_at (∅ : Store) ten_am) (world_at (∅ : Store) ten_am).
Proof.
  repeat apply conj.
  - destruct (role_gate_protected_paths
                (request_of "GET" "/chats/admin/x" "10.0.0.7" (Some alice))
                (world_at (∅ : Store) ten_am)) as [Hp _].
    destruct Hp as (_ & Hfw & _); [left; exists "/x"%string; reflexivity |].
    apply Hfw. exists alice. repeat split. right. left. left. reflexivity.
  - destruct (role_gate_protected_paths
                (request_of "GET" "/chats/admin/x" "10.0.0.7" (Some bob))
                (world_at (∅ : Store) ten_am)) as [Hp _].
    destruct Hp as (_ & _ & Hrej & _); [left; exists "/x"%string; reflexivity |].
    apply Hrej.
    intros (u & [= <-] & _ & [Hs | [[Hg | []] | [Hg | []]]]); discriminate.
  - destruct (role_gate_protected_paths
                (request_of "GET" "/chats/messages" "10.0.0.7" (Some bob))
                (world_at (∅ : Store) ten_am)) as [_ Hn].
    apply Hn.
    intros [[r Hr] | [r Hr]]; discriminate.
Defined.

(* ===================================================================== *)

(** ** The rate limiter *)
(* ===================================================================== *)

Lemma OLM_out_of_scope {St} `{BaseCache St} (get_response : @Handler St) request w :
  rate_limited request = false ->
  OffensiveLanguageMiddleware get_response request w = get_response request w.
Proof. intros Hrl. unfold OffensiveLanguageMiddleware. rewrite Hrl. reflexivity. Qed.

Lemma OLM_LocMem_outcome request (w : World Store) :
  rate_limited request = true ->
  let key := rate_key request in
  let b := fst (next_bucket key w) in
  let w' := written key b (snd (next_bucket key w)) w in
  (count b <= MAX_MESSAGES /\ forwards OffensiveLanguageMiddleware request w w') \/
  (MAX_MESSAGES < count b /\
   rejects OffensiveLanguageMiddleware request w
     (HttpResponseForbidden "Rate limit exceeded: max 5 messages per minute.") w').
Proof.
  intros Hrl. cbv zeta.
  destruct (count (fst (next_bucket (rate_key request) w)) >? MAX_MESSAGES) eqn:Hc.
  - right. split; [lia |]. intros g. rewrite OLM_LocMem by exact Hrl. cbv zeta.
    rewrite Hc. reflexivity.
  - left. split; [lia |]. intros g. rewrite OLM_LocMem by exact Hrl. cbv zeta.
    rewrite Hc. reflexivity.
Qed.

Lemma written_lookup key b n (w : World Store) :
  cache (written key b n w) !! key
  = Some (b, clock w (ticks w + n - 1)%nat + Time.timedelta WINDOW_SECONDS).
Proof. unfold written. cbn [cache]. apply lookup_after_set_eq. Qed.

(** An entry found under another key afterwards was there before ... *)
Lemma written_lookup_other key key' b n (w : World Store) x :
  key <> key' -> cache (written key b n w) !! key' = Some x -> cache w !! key' = Some x.
Proof.
  intros Hne Hx. unfold written in Hx. cbn [cache] in Hx.
  apply lookup_after_set_other in Hx; [| exact Hne].
  rewrite lookup_after_get_ne in Hx by exact Hne. exact Hx.
Qed.

(** ... and every other key keeps its entry while the cache has room. *)
Lemma written_lookup_room key key' b n (w : World Store) :
  key <> key' -> (entries (cache w) < MAX_ENTRIES)%nat ->
  cache (written key b n w) !! key' = cache w !! key'.
Proof.
  intros Hne Hroom. unfold written. cbn [cache].
  rewrite lookup_after_set_room; [apply lookup_after_get_ne, Hne | exact Hne |].
  pose proof (entries_after_get key (clock w (ticks w + 1)%nat) (cache w)). lia.
Qed.

Lemma written_entries key b n (w : World Store) :
  (entries (cache (written key b n w)) <= S (entries (cache w)))%nat.
Proof.
  unfold written. cbn [cache].
  match goal with |- (entries (after_set ?k ?v ?t ?c ?s) <= _)%nat =>
    pose proof (entries_after_set k v t c s) end.
  pose proof (entries_after_get key (clock w (ticks w + 1)%nat) (cache w)). lia.
Qed.

Lemma next_bucket_readings key (w : World Store) :
  snd (next_bucket key w) = 4%nat \/ snd (next_bucket key w) = 5%nat.
Proof. unfold next_bucket. destruct (_ >=? _); auto. Qed.

(** C6. Only a POST whose path begins with "/chats" reaches the rate
    limiter. A request with another method, or with a path that does not
    begin with "/chats", goes straight to the rest of the chain: it is
    not counted and the world (the store, for every key) is as it was,
    whatever the cache backend. A POST to a "/chats" path is counted: on
    the local-memory cache its client's bucket is written. *)
Theorem rate_limit_scope :
  (forall St (C : BaseCache St) (request : Request) (w : World St),
     method request <> "POST"%string \/ ~ has_prefix "/chats" (path request) ->
     forwards OffensiveLanguageMiddleware request w w) /\
  (forall (request : Request) (w : World Store),
     method request = "POST"%string -> has_prefix "/chats" (path request) ->
     exists b expiry w',
       (forwards OffensiveLanguageMiddleware request w w' \/
        rejects OffensiveLanguageMiddleware request w
          (HttpResponseForbidden "Rate limit exceeded: max 5 messages per minute.") w') /\
       cache w' !! rate_key request = Some (b, expiry) /\
       (ticks w < ticks w')%nat).
Proof.
  split.
  - intros St C request w Hout g. apply OLM_out_of_scope.
    destruct (rate_limited request) eqn:Hrl; [| reflexivity].
    apply rate_limited_spec in Hrl. tauto.
  - intros request w Hm Hp.
    assert (Hrl : rate_limited request = true) by (apply rate_limited_spec; auto).
    pose proof (OLM_LocMem_outcome request w Hrl) as Hout. cbv zeta in Hout.
    eexists _, _, _. split; [| split; [apply written_lookup |]].
    + destruct Hout as [[_ Hf] | [_ Hr]]; [left; exact Hf | right; exact Hr].
    + unfold written. cbn [ticks].
      destruct (next_bucket_readings (rate_key request) w) as [-> | ->]; lia.
Qed.

(** A GET to /chats/send and a POST to /health pass uncounted, on any
    backend. *)
Lemma rate_limit_scope_witness :
  forwards OffensiveLanguageMiddleware get_send
    (world_at (∅ : Store) ten_am) (world_at (∅ : Store) ten_am) /\
  forwards OffensiveLanguageMiddleware (request_of "POST" "/health" "10.0.0.7" None)
    (world_at tt ten_am) (world_at tt ten_am).
Proof.
  split.
  - apply (proj1 rate_limit_scope). left. discriminate.
  - apply (proj1 rate_limit_scope). right. intros [r Hr]. discriminate.
Defined.

(* ===================================================================== *)
(** ** The request logger and the chain *)
(* ===================================================================== *)

Lemma logging_eq {St} (get_response : @Handler St) request w :
  RequestLoggingMiddleware get_response request w =
    let line := Time.strftime (clock w (ticks w)) "%Y-%m-%d %H:%M:%S"
                +:+ " - User: " +:+ log_user request +:+ " - Path: " +:+ path request in
    get_response request
      {| cache := cache w;
         request_file := request_file w ++ [line];
         console := console w ++ [line];
         clock := clock w; ticks := S (ticks w) |}.
Proof. reflexivity. Qed.

(** *** The exception wrapper of [load_middleware] *)

Section Wrapper.
Context {St : Type} `{BaseCache St} `{ErrorPages}.

Lemma convert_returned (g : @Handler St) request w response w' :
  g request w = (Returned response, w') ->
  convert_exception_to_response g request w = (Returned response, w').
Proof. intros Hg. unfold convert_exception_to_response. rewrite Hg. reflexivity. Qed.

Lemma convert_raised (g : @Handler St) request w e w' :
  g request w = (Raised e, w') ->
  convert_exception_to_response g request w = (Returned (response_for_exception e), w').
Proof. intros Hg. unfold convert_exception_to_response. rewrite Hg. reflexivity. Qed.

Lemma convert_snd (g : @Handler St) request w :
  snd (convert_exception_to_response g request w) = snd (g request w).
Proof.
  unfold convert_exception_to_response. destruct (g request w) as [[e | a] w']; reflexivity.
Qed.

Lemma convert_idem (g : @Handler St) request w :
  convert_exception_to_response (convert_exception_to_response g) request w
  = convert_exception_to_response g request w.
Proof.
  unfold convert_exception_to_response. destruct (g request w) as [[e | a] w']; reflexivity.
Qed.

(** A layer that does not raise by itself commutes with the wrapper. *)
Lemma convert_logging (g : @Handler St) request w :
  convert_exception_to_response (RequestLoggingMiddleware g) request w
  = RequestLoggingMiddleware (convert_exception_to_response g) request w.
Proof. reflexivity. Qed.

Lemma convert_time_gate utcoffset (g : @Handler St) request w :
  convert_exception_to_response (RestrictAccessByTimeMiddleware utcoffset g) request w
  = RestrictAccessByTimeMiddleware utcoffset (convert_exception_to_response g) request w.
Proof.
  unfold convert_exception_to_response at 1. rewrite !time_gate_eq. cbv zeta.
  destruct (allowed _); reflexivity.
Qed.

Lemma convert_role_gate (g : @Handler St) request w :
  convert_exception_to_response (RolepermissionMiddleware g) request w
  = RolepermissionMiddleware (convert_exception_to_response g) request w.
Proof.
  unfold convert_exception_to_response at 1. rewrite !role_gate_eq.
  destruct (_ && _); reflexivity.
Qed.

Lemma convert_ext (g h : @Handler St) request w :
  g request w = h request w ->
  convert_exception_to_response g request w = convert_exception_to_response h request w.
Proof. intros E. unfold convert_exception_to_response. rewrite E. reflexivity. Qed.

Lemma convert_leaves_log (g : @Handler St) :
  leaves_log g -> leaves_log (convert_exception_to_response g).
Proof. intros Hg request w. rewrite convert_snd. apply Hg. Qed.

End Wrapper.

Lemma chain_eq {St} `{BaseCache St} `{ErrorPages} utcoffset (get_response : @Handler St)
  request w :
  chain utcoffset get_response request w =
    RequestLoggingMiddleware
      (RestrictAccessByTimeMiddleware utcoffset
         (convert_exception_to_response
            (OffensiveLanguageMiddleware
               (convert_exception_to_response (RolepermissionMiddleware get_response)))))
      request w.
Proof.
  unfold chain, load_middleware, MIDDLEWARE. cbn [fold_right].
  rewrite convert_logging, !logging_eq. cbv zeta.
  rewrite convert_idem, convert_time_gate, !time_gate_eq. cbv zeta.
  destruct (allowed _); [apply convert_idem | reflexivity].
Qed.

(** C5. When the local hour is outside [START_HOUR, END_HOUR) the chain
    stops at the time gate: the answer is 403 with the body
    "Chat is closed. Please come back during allowed hours.", whatever
    the rest of the chain is, and the world it leaves differs from the
    one it found only by the log line and the two clock readings of the
    logger and of the gate. The cache is the one it found, so no bucket
    of any client was read or written. *)
Theorem closed_hours_short_circuit {St} `{BaseCache St} `{ErrorPages} (utcoffset : Z -> Z)
  (request : Request) (w : World St) :
  let now := clock w (ticks w + 1)%nat in
  let hour := Time.hour (Time.fields_at (utcoffset now) now) in
  let line := Time.strftime (clock w (ticks w)) "%Y-%m-%d %H:%M:%S"
              +:+ " - User: " +:+ log_user request +:+ " - Path: " +:+ path request in
  ~ START_HOUR <= hour < END_HOUR ->
  rejects (chain utcoffset) request w
    (HttpResponseForbidden "Chat is closed. Please come back during allowed hours.")
    {| cache := cache w;
       request_file := request_file w ++ [line];
       console := console w ++ [line];
       clock := clock w; ticks := (ticks w + 2)%nat |}.
Proof.
  cbv zeta. intros Hh g.
  rewrite chain_eq, logging_eq. cbv zeta. rewrite time_gate_eq. cbv zeta.
  cbn [clock ticks]. destruct (ticks_plus w) as (E1 & E2 & _). rewrite E1.
  destruct (allowed _) eqn:Ha.
  - exfalso. apply Hh. apply allowed_spec in Ha. exact Ha.
  - apply (f_equal (pair _)), world_eq;
      cbn [tick cache request_file console clock ticks]; try reflexivity; lia.
Qed.

(** A POST to /chats/send at 22:00: turned away by the time gate, the
    bucket of the client is still missing. *)
Lemma closed_hours_short_circuit_witness :
  let w' := snd (chain (fun _ => 0) view_ok post_send (world_at (∅ : Store) ten_pm)) in
  fst (chain (fun _ => 0) view_ok post_send (world_at (∅ : Store) ten_pm))
    = Returned (HttpResponseForbidden "Chat is closed. Please come back during allowed hours.")
  /\ cache w' !! rate_key post_send = None
  /\ request_file w' = ["2023-11-14 22:00:00 - User: anonymous - Path: /chats/send"%string].
Proof.
  cbv zeta.
  rewrite (closed_hours_short_circuit (fun _ => 0) post_send (world_at (∅ : Store) ten_pm)).
  - repeat split.
  - vm_compute. intros [_ Hlt]. discriminate Hlt.
Defined.

Lemma digit_is_digit (n : Z) : is_digit (Py.digit n) = true.
Proof.
  unfold Py.digit.
  assert (Hlt : (Z.to_nat (n mod 10) < 10)%nat)
    by (pose proof (Z.mod_pos_bound n 10); lia).
  destruct (Z.to_nat (n mod 10)) as [|[|[|[|[|[|[|[|[|[|k]]]]]]]]]]; try reflexivity; lia.
Qed.

Lemma strftime_shape (f : Time.fields) :
  matches "dddd-dd-dd dd:dd:dd" (Time.strftime_fields f "%Y-%m-%d %H:%M:%S") = true.
Proof.
  cbv [String.append matches Time.strftime_fields Py.zero_padded Ascii.eqb Bool.eqb].
  rewrite !digit_is_digit. reflexivity.
Qed.

(** *** Layers that leave the log alone *)

Section LogFrame.
Context {St : Type} `{BaseCache St}.

Lemma log_stable_ret {A} (a : A) : log_stable (@ret St A a).
Proof. intros w. split; reflexivity. Qed.

Lemma log_stable_bind {A B} (c : M St A) (k : A -> M St B) :
  log_stable c -> (forall a, log_stable (k a)) -> log_stable (bind c k).
Proof.
  intros Hc Hk w. unfold bind. specialize (Hc w).
  destruct (c w) as [[e | a] w1]; cbn [snd] in *.
  - exact Hc.
  - destruct (Hk a w1) as [Hf Hs]. destruct Hc as [Hf1 Hs1]. split; congruence.
Qed.

Lemma log_stable_read_clock : log_stable (@read_clock St).
Proof. intros w. split; reflexivity. Qed.

Lemma log_stable_cache_get key default : log_stable (cache_get key default).
Proof.
  apply log_stable_bind; [apply log_stable_read_clock |].
  intros t w. destruct (backend_get key t (cache w)) as [e | [[v |] s]]; split; reflexivity.
Qed.

Lemma log_stable_cache_set key value timeout : log_stable (cache_set key value timeout).
Proof.
  apply log_stable_bind; [apply log_stable_read_clock |].
  intros t w. destruct (backend_set key value timeout t (cache w)) as [e | s];
    split; reflexivity.
Qed.

Lemma time_gate_leaves_log utcoffset (get_response : @Handler St) :
  leaves_log get_response -> leaves_log (RestrictAccessByTimeMiddleware utcoffset get_response).
Proof.
  intros Hg request. unfold RestrictAccessByTimeMiddleware, timezone_localtime.
  repeat (apply log_stable_bind; [| intros ?]);
    try apply log_stable_read_clock; try apply log_stable_ret.
  destruct (negb _); [apply log_stable_ret | apply Hg].
Qed.

Lemma rate_limiter_leaves_log (get_response : @Handler St) :
  leaves_log get_response -> leaves_log (OffensiveLanguageMiddleware get_response).
Proof.
  intros Hg request. unfold OffensiveLanguageMiddleware, timezone_now.
  destruct (rate_limited request); [| apply Hg].
  apply log_stable_bind; [apply log_stable_read_clock | intros now0].
  apply log_stable_bind; [apply log_stable_cache_get | intros b0].
  apply log_stable_bind; [apply log_stable_read_clock | intros now1].
  apply log_stable_bind.
  - destruct (now1 >=? reset_at b0); [| apply log_stable_ret].
    apply log_stable_bind; [apply log_stable_read_clock | intros; apply log_stable_ret].
  - intros b1. cbv zeta. destruct (_ >? MAX_MESSAGES);
      (apply log_stable_bind; [apply log_stable_cache_set | intros _]);
      [apply log_stable_ret | apply Hg].
Qed.

Lemma role_gate_leaves_log (get_response : @Handler St) :
  leaves_log get_response -> leaves_log (RolepermissionMiddleware get_response).
Proof.
  intros Hg request. unfold RolepermissionMiddleware. cbv zeta.
  destruct (Py.startswith_any _ _); [destruct (negb _) |];
    first [apply log_stable_ret | apply Hg].
Qed.

End LogFrame.

(** C9. Every request gets exactly one log line, written by the first
    layer before anything else runs, so whatever the later gates decide:
    the line is the UTC timestamp in the form YYYY-MM-DD HH:MM:SS, then
    " - User: " and the username (the word anonymous when the request has
    no user or an unauthenticated one), then " - Path: " and the path.
    Each of the two sinks of the logger receives that line once. The
    logger always hands the request on: it neither answers nor raises. *)
Theorem request_log_line {St} `{BaseCache St} `{ErrorPages} (utcoffset : Z -> Z)
  (request : Request) (w : World St) :
  let ts := Time.strftime (clock w (ticks w)) "%Y-%m-%d %H:%M:%S" in
  let who :=
    match user request with
    | Some u => if is_authenticated u then username u else "anonymous"%string
    | None => "anonymous"%string
    end in
  let line := ts +:+ " - User: " +:+ who +:+ " - Path: " +:+ path request in
  matches "dddd-dd-dd dd:dd:dd" ts = true /\
  forwards RequestLoggingMiddleware request w
    {| cache := cache w;
       request_file := request_file w ++ [line];
       console := console w ++ [line];
       clock := clock w; ticks := (ticks w + 1)%nat |} /\
  (forall get_response,
     leaves_log get_response ->
     request_file (snd (chain utcoffset get_response request w)) = request_file w ++ [line] /\
     console (snd (chain utcoffset get_response request w)) = console w ++ [line]).
Proof.
  cbv zeta. split; [apply strftime_shape | split].
  - intros g. rewrite logging_eq. cbv zeta. apply f_equal, world_eq;
      cbn [cache request_file console clock ticks]; try reflexivity. lia.
  - intros g Hg. rewrite chain_eq, logging_eq. cbv zeta.
    pose proof (time_gate_leaves_log utcoffset _
                  (convert_leaves_log _
                     (rate_limiter_leaves_log _
                        (convert_leaves_log _ (role_gate_leaves_log _ Hg))))) as Hrest.
    match goal with
    | |- context [RestrictAccessByTimeMiddleware _ _ _ ?w1] =>
        destruct (Hrest request w1) as [Hf Hc]
    end.
    rewrite Hf, Hc. split; reflexivity.
Qed.

(** The line of an anonymous POST at 10:00, which passes every gate, and
    at 22:00, which the time gate turns away. *)
Lemma request_log_line_witness :
  request_file (snd (chain (fun _ => 0) view_ok post_send (world_at (∅ : Store) ten_am)))
    = ["2023-11-15 10:00:00 - User: anonymous - Path: /chats/send"%string] /\
  request_file (snd (chain (fun _ => 0) view_ok post_send (world_at (∅ : Store) ten_pm)))
    = ["2023-11-14 22:00:00 - User: anonymous - Path: /chats/send"%string].
Proof.
  split.
  - apply (request_log_line (fun _ => 0) post_send (world_at (∅ : Store) ten_am)).
    intros request w. split; reflexivity.
  - apply (request_log_line (fun _ => 0) post_send (world_at (∅ : Store) ten_pm)).
    intros request w. split; reflexivity.
Defined.

(* ===================================================================== *)

(* ===================================================================== *)
(** ** Windows of the rate limiter *)
(* ===================================================================== *)

Lemma timedelta_window : Time.timedelta WINDOW_SECONDS = 60000000.
Proof. reflexivity. Qed.

(** What a request that finds no live window writes. *)
Lemma next_bucket_fresh key (w : World Store) :
  no_live_window key w ->
  next_bucket key w
  = ({| count := 1; reset_at := clock w (ticks w) + Time.timedelta WINDOW_SECONDS |}, 4%nat)
  \/ next_bucket key w
     = ({| count := 1;
           reset_at := clock w (ticks w + 3)%nat + Time.timedelta WINDOW_SECONDS |}, 5%nat).
Proof.
  unfold no_live_window, next_bucket, seen_bucket.
  destruct (cache w !! key) as [[v expiry]|].
  - intros Hstale. destruct (expiry <=? clock w (ticks w + 1)%nat) eqn:Hexp.
    + cbn [reset_at count]. destruct (_ >=? _); auto.
    + destruct (clock w (ticks w + 2)%nat >=? reset_at v) eqn:Hchk; [auto | lia].
  - intros _. cbn [reset_at count]. destruct (_ >=? _); auto.
Qed.

(** C2. A rate-limited request whose client has no bucket in the store,
    or a bucket whose reset_at is not after the current time (or whose
    entry has expired), starts a fresh window: it is let through, and
    the bucket written back has count 1 and reset_at 60 seconds after a
    clock reading of this very request (the one of line 76 when the
    default bucket is used, the one of line 80 when the window is
    reset). *)
Theorem fresh_window_starts_at_one (request : Request) (w : World Store) :
  method request = "POST"%string -> has_prefix "/chats" (path request) ->
  no_live_window (rate_key request) w ->
  exists i k,
    ((i = ticks w /\ k = 4) \/ (i = ticks w + 3 /\ k = 5))%nat /\
    let b := {| count := 1; reset_at := clock w i + Time.timedelta WINDOW_SECONDS |} in
    let w' := written (rate_key request) b k w in
    forwards OffensiveLanguageMiddleware request w w' /\
    cache w' !! rate_key request
      = Some (b, clock w (ticks w + k - 1)%nat + Time.timedelta WINDOW_SECONDS) /\
    Time.timedelta WINDOW_SECONDS = 60 * 1000000.
Proof.
  intros Hm Hp Hfresh.
  assert (Hrl : rate_limited request = true) by (apply rate_limited_spec; auto).
  pose proof (OLM_LocMem_outcome request w Hrl) as Hout. cbv zeta in Hout.
  destruct (next_bucket_fresh _ _ Hfresh) as [Hnb | Hnb]; rewrite Hnb in Hout;
    cbn [fst snd count] in Hout;
    [exists (ticks w), 4%nat | exists (ticks w + 3)%nat, 5%nat];
    (split; [lia |]); cbv zeta;
    (split; [| split; [apply written_lookup | reflexivity]]);
    (destruct Hout as [[_ Hf] | [Hgt _]]; [exact Hf | unfold MAX_MESSAGES in Hgt; lia]).
Qed.

(** A client seen for the first time, and a client whose bucket ran out
    a second ago while its cache entry is still alive. *)
Lemma fresh_window_starts_at_one_witness :
  (exists i k,
     ((i = 0 /\ k = 4) \/ (i = 3 /\ k = 5))%nat /\
     forwards OffensiveLanguageMiddleware post_send (world_at (∅ : Store) ten_am)
       (written (rate_key post_send)
          {| count := 1; reset_at := ten_am + Z.of_nat i + 60000000 |} k
          (world_at (∅ : Store) ten_am))) /\
  (exists i k,
     ((i = 0 /\ k = 4) \/ (i = 3 /\ k = 5))%nat /\
     forwards OffensiveLanguageMiddleware post_send
       (world_at ({[ rate_key post_send :=
                      ({| count := 9; reset_at := ten_am - 1000000 |}, ten_am + 30000000) ]}
                  : Store) ten_am)
       (written (rate_key post_send)
          {| count := 1; reset_at := ten_am + Z.of_nat i + 60000000 |} k
          (world_at ({[ rate_key post_send :=
                         ({| count := 9; reset_at := ten_am - 1000000 |},
                          ten_am + 30000000) ]} : Store) ten_am))).
Proof.
  split.
  - destruct (fresh_window_starts_at_one post_send (world_at (∅ : Store) ten_am))
      as (i & k & Hik & Hf & _).
    + reflexivity.
    + exists "/send"%string. reflexivity.
    + exact I.
    + exists i, k. split; [exact Hik | exact Hf].
  - destruct (fresh_window_starts_at_one post_send
                (world_at ({[ rate_key post_send :=
                               ({| count := 9; reset_at := ten_am - 1000000 |},
                                ten_am + 30000000) ]} : Store) ten_am))
      as (i & k & Hik & Hf & _).
    + reflexivity.
    + exists "/send"%string. reflexivity.
    + unfold no_live_window. vm_compute. right. discriminate.
    + exists i, k. split; [exact Hik | exact Hf].
Defined.

(** The bucket written by a request, when every stored bucket is in
    order: its count and the clock reading its window is counted from. *)
Lemma next_bucket_ok key (w : World Store) :
  store_ok w ->
  let b := fst (next_bucket key w) in
  let k := snd (next_bucket key w) in
  1 <= count b /\
  exists i, (i < ticks w + k - 1)%nat /\
            reset_at b = clock w i + Time.timedelta WINDOW_SECONDS.
Proof.
  intros Hok. cbv zeta. unfold next_bucket, seen_bucket.
  destruct (cache w !! key) as [[v expiry]|] eqn:Hk.
  - destruct (Hok _ _ _ Hk) as (Hc & i & Hi & Hr).
    destruct (expiry <=? _); cbn [reset_at count]; destruct (_ >=? _);
      cbn [fst snd count reset_at]; (split; [lia |]).
    + exists (ticks w + 3)%nat. split; [lia | reflexivity].
    + exists (ticks w). split; [lia | reflexivity].
    + exists (ticks w + 3)%nat. split; [lia | reflexivity].
    + exists i. split; [lia | exact Hr].
  - cbn [reset_at count]. destruct (_ >=? _); cbn [fst snd count reset_at];
      (split; [lia |]).
    + exists (ticks w + 3)%nat. split; [lia | reflexivity].
    + exists (ticks w). split; [lia | reflexivity].
Qed.

(** C10. Whatever a rate-limited request writes back, when it is let
    through as when it is turned away, has a count of at least 1 (so
    never 0) and a reset_at that lies 60 seconds, hence strictly, after
    the clock reading at which its window was created; the entry is
    stored with an expiry of a full 60 seconds after the reading taken
    at the write, which under a clock that advances is later than the
    bucket's own reset_at. The store stays in this state from request
    to request. *)
Theorem written_bucket_invariant (request : Request) (w : World Store) :
  method request = "POST"%string -> has_prefix "/chats" (path request) ->
  store_ok w ->
  exists b k,
    (k = 4 \/ k = 5)%nat /\
    let key := rate_key request in
    let w' := written key b k w in
    let expiry := clock w (ticks w' - 1)%nat + Time.timedelta WINDOW_SECONDS in
    ((count b <= MAX_MESSAGES /\ forwards OffensiveLanguageMiddleware request w w') \/
     (MAX_MESSAGES < count b /\
      rejects OffensiveLanguageMiddleware request w
        (HttpResponseForbidden "Rate limit exceeded: max 5 messages per minute.") w')) /\
    cache w' !! key = Some (b, expiry) /\
    1 <= count b /\ count b <> 0 /\
    (exists i, (i < ticks w' - 1)%nat /\
               reset_at b = clock w i + Time.timedelta WINDOW_SECONDS /\
               clock w i < reset_at b) /\
    Time.timedelta WINDOW_SECONDS = 60 * 1000000 /\
    ((forall i j, (i < j)%nat -> clock w i < clock w j) -> reset_at b < expiry) /\
    ((forall i j, (i <= j)%nat -> clock w i <= clock w j) -> reset_at b <= expiry) /\
    store_ok w'.
Proof.
  intros Hm Hp Hok.
  assert (Hrl : rate_limited request = true) by (apply rate_limited_spec; auto).
  pose proof (OLM_LocMem_outcome request w Hrl) as Hout. cbv zeta in Hout.
  pose proof (next_bucket_ok (rate_key request) w Hok) as Hb. cbv zeta in Hb.
  pose proof (next_bucket_readings (rate_key request) w) as Hk.
  destruct (next_bucket (rate_key request) w) as [b k]. cbn [fst snd] in *.
  destruct Hb as (Hc & i & Hi & Hr).
  exists b, k. split; [exact Hk |]. cbv zeta.
  assert (Et : (ticks (written (rate_key request) b k w) - 1 = ticks w + k - 1)%nat)
    by (unfold written; cbn [ticks]; lia).
  rewrite Et.
  split; [exact Hout |].
  split; [apply written_lookup |].
  split; [exact Hc |]. split; [lia |].
  split; [exists i; rewrite Hr, timedelta_window; repeat split; lia |].
  split; [reflexivity |].
  split; [intros Hmono; rewrite Hr; specialize (Hmono i (ticks w + k - 1)%nat); lia |].
  split; [intros Hmono; rewrite Hr; specialize (Hmono i (ticks w + k - 1)%nat); lia |].
  intros key' b' e'. destruct (decide (rate_key request = key')) as [<- | Hne].
  - rewrite written_lookup. intros [= <- <-]. split; [exact Hc |].
    exists i. split; [unfold written; cbn [ticks]; lia | exact Hr].
  - intros Hk'. apply written_lookup_other in Hk'; [| exact Hne].
    destruct (Hok _ _ _ Hk') as (Hc' & i' & Hi' & Hr').
    split; [exact Hc' |]. exists i'. split; [unfold written; cbn [ticks]; lia | exact Hr'].
Qed.

(** The first two requests of a client: the counts are at least 1, each
    window is counted from an earlier reading than the expiry of the
    entry, and the store is in order after each. *)
Lemma written_bucket_invariant_witness :
  store_ok (world_at (∅ : Store) ten_am) /\
  exists b k b' k',
    let w1 := written (rate_key post_send) b k (world_at (∅ : Store) ten_am) in
    let w2 := written (rate_key post_send) b' k' w1 in
    store_ok w1 /\
    cache w1 !! rate_key post_send = Some (b, ten_am + Z.of_nat (0 + k - 1) + 60000000) /\
    1 <= count b /\
    reset_at b < ten_am + Z.of_nat (0 + k - 1) + 60000000 /\
    store_ok w2 /\
    cache w2 !! rate_key post_send
      = Some (b', ten_am + Z.of_nat (ticks w2 - 1) + 60000000) /\
    1 <= count b' /\
    reset_at b' < ten_am + Z.of_nat (ticks w2 - 1) + 60000000.
Proof.
  assert (Hok : store_ok (world_at (∅ : Store) ten_am)).
  { intros key b e Hk. cbv in Hk. discriminate Hk. }
  split; [exact Hok |].
  destruct (written_bucket_invariant post_send (world_at (∅ : Store) ten_am))
    as (b & k & _ & _ & Hl & Hc & _ & _ & _ & Hlt & _ & Hok1);
    [reflexivity | exists "/send"%string; reflexivity | exact Hok |].
  cbv zeta in Hl, Hlt, Hok1.
  destruct (written_bucket_invariant post_send
              (written (rate_key post_send) b k (world_at (∅ : Store) ten_am)))
    as (b' & k' & _ & _ & Hl' & Hc' & _ & _ & _ & Hlt' & _ & Hok2);
    [reflexivity | exists "/send"%string; reflexivity | exact Hok1 |].
  cbv zeta in Hl', Hlt', Hok2.
  exists b, k, b', k'. cbv zeta.
  split; [exact Hok1 |]. split; [exact Hl |]. split; [exact Hc |].
  split; [apply Hlt; intros i j Hij; cbn [clock world_at]; lia |].
  split; [exact Hok2 |]. split; [exact Hl' |]. split; [exact Hc' |].
  apply Hlt'. intros i j Hij. cbn [clock world_at written]. lia.
Defined.


(* ===================================================================== *)
(** ** Requests served one after the other within one window *)
(* ===================================================================== *)

Lemma append_cons c a b : String c a +:+ b = String c (a +:+ b).
Proof. reflexivity. Qed.

Lemma append_inj p a b : p +:+ a = p +:+ b -> a = b.
Proof.
  induction p as [| c p IH]; [auto |]. rewrite !append_cons. intros [= E]. apply IH, E.
Qed.

Lemma counts_for_spec ip request :
  counts_for ip request = true <-> rate_limited request = true /\ _get_client_ip request = ip.
Proof. unfold counts_for. rewrite andb_true_iff, String.eqb_eq. reflexivity. Qed.

Lemma rank_head ip r rs :
  rank ip (r :: rs) 0 = if counts_for ip r then 1 else 0.
Proof.
  unfold rank. cbn [firstn List.filter]. destruct (counts_for ip r); reflexivity.
Qed.

Lemma rank_tail ip r rs j :
  rank ip (r :: rs) (S j) = (if counts_for ip r then 1 else 0) + rank ip rs j.
Proof.
  unfold rank. cbn [firstn List.filter].
  destruct (counts_for ip r); cbn [length]; lia.
Qed.

Lemma rank_nonneg ip rs i : 0 <= rank ip rs i.
Proof. unfold rank. lia. Qed.

Section Run.
Variable get_response : @Handler Store.
Hypothesis Hframe : leaves_cache get_response.

Lemma OLM_frame request (w : World Store) :
  rate_limited request = true ->
  let key := rate_key request in
  let b := fst (next_bucket key w) in
  let w' := written key b (snd (next_bucket key w)) w in
  let rw := OffensiveLanguageMiddleware get_response request w in
  cache (snd rw) = cache w' /\ clock (snd rw) = clock w /\ (ticks w' <= ticks (snd rw))%nat /\
  (count b <= MAX_MESSAGES -> rw = get_response request w') /\
  (MAX_MESSAGES < count b ->
   fst rw = Returned (HttpResponseForbidden "Rate limit exceeded: max 5 messages per minute.")).
Proof.
  intros Hrl. cbv zeta. rewrite OLM_LocMem by exact Hrl. cbv zeta.
  destruct (count _ >? MAX_MESSAGES) eqn:Hc.
  - cbn [fst snd]. repeat split; try reflexivity; try lia.
  - destruct (Hframe request (written (rate_key request) (fst (next_bucket (rate_key request) w))
                                (snd (next_bucket (rate_key request) w)) w)) as (H1 & H2 & H3).
    repeat split; try assumption; try lia.
Qed.

Lemma OLM_clock request (w : World Store) :
  clock (snd (OffensiveLanguageMiddleware get_response request w)) = clock w /\
  (ticks w <= ticks (snd (OffensiveLanguageMiddleware get_response request w)))%nat.
Proof.
  destruct (rate_limited request) eqn:Hrl.
  - destruct (OLM_frame request w Hrl) as (_ & Hc & Ht & _). cbv zeta in *.
    split; [exact Hc |]. revert Ht. unfold written. cbn [ticks]. lia.
  - rewrite OLM_out_of_scope by exact Hrl.
    destruct (Hframe request w) as (_ & Hc & Ht). auto.
Qed.

Lemma serve_end_frame requests (w : World Store) :
  clock (serve_end (OffensiveLanguageMiddleware get_response) requests w) = clock w /\
  (ticks w <= ticks (serve_end (OffensiveLanguageMiddleware get_response) requests w))%nat.
Proof.
  revert w. induction requests as [| r rs IH]; intros w.
  - split; [reflexivity | cbn; lia].
  - cbn [serve_end fold_left].
    destruct (OLM_clock r w) as [Hc Ht].
    specialize (IH (snd (OffensiveLanguageMiddleware get_response r w))).
    unfold serve_end in IH. destruct IH as [IH1 IH2]. split; [congruence | lia].
Qed.

Lemma next_bucket_live key (w : World Store) c R e :
  cache w !! key = Some ({| count := c; reset_at := R |}, e) ->
  clock w (ticks w + 1)%nat < e ->
  clock w (ticks w + 2)%nat < R ->
  next_bucket key w = ({| count := c + 1; reset_at := R |}, 4%nat).
Proof.
  intros Hk He HR. unfold next_bucket, seen_bucket. rewrite Hk.
  destruct (e <=? _) eqn:E1; [lia |]. cbn [reset_at count].
  destruct (_ >=? R) eqn:E2; [lia | reflexivity].
Qed.

Section Window.
Variables (ip : string) (T R : Z).

(** One request inside a live window of [ip]: the bucket holds count
    [c] and reset_at [R], the readings of the request lie in
    [T, T + window) and neither [R] nor the expiry of the entry comes
    before [T + window]. A request of another client leaves the entry
    alone as long as the cache does not cull. *)
Lemma live_step request (w : World Store) c e :
  cache w !! (SCOPE_PREFIX +:+ ip) = Some ({| count := c; reset_at := R |}, e) ->
  T + Time.timedelta WINDOW_SECONDS <= R ->
  T + Time.timedelta WINDOW_SECONDS <= e ->
  (forall n,
     (ticks w <= n < ticks (snd (OffensiveLanguageMiddleware get_response request w)))%nat ->
     T <= clock w n < T + Time.timedelta WINDOW_SECONDS) ->
  ((entries (cache w) < MAX_ENTRIES)%nat \/
   (rate_limited request = true -> _get_client_ip request = ip)) ->
  let rw := OffensiveLanguageMiddleware get_response request w in
  let c1 := c + (if counts_for ip request then 1 else 0) in
  (exists e1, cache (snd rw) !! (SCOPE_PREFIX +:+ ip)
              = Some ({| count := c1; reset_at := R |}, e1) /\
              T + Time.timedelta WINDOW_SECONDS <= e1) /\
  (entries (cache (snd rw)) <= S (entries (cache w)))%nat /\
  (counts_for ip request = true ->
   (c1 <= MAX_MESSAGES ->
    exists w', get_response request w' = rw /\ cache w' = cache (snd rw)) /\
   (MAX_MESSAGES < c1 ->
    fst rw = Returned (HttpResponseForbidden
                         "Rate limit exceeded: max 5 messages per minute."))).
Proof.
  set (W := Time.timedelta WINDOW_SECONDS).
  intros Hk HR He Hrange Hroom. cbv zeta.
  destruct (rate_limited request) eqn:Hrl.
  - pose proof (OLM_frame request w Hrl) as Hstep. cbv zeta in Hstep.
    destruct Hstep as (Hcache & Hclock & Hticks & Hallow & Hdeny).
    assert (Hk4 : (ticks w + 4 <= ticks (snd (OffensiveLanguageMiddleware get_response
                                                  request w)))%nat).
    { revert Hticks. unfold written. cbn [ticks].
      destruct (next_bucket_readings (rate_key request) w) as [-> | ->]; lia. }
    split; [| split].
    + destruct (String.eqb (_get_client_ip request) ip) eqn:Hip.
      * apply String.eqb_eq in Hip.
        assert (Hc : counts_for ip request = true) by (apply counts_for_spec; auto).
        rewrite Hc.
        assert (Hkey : rate_key request = SCOPE_PREFIX +:+ ip)
          by (unfold rate_key; rewrite Hip; reflexivity).
        rewrite Hkey in Hcache.
        rewrite (next_bucket_live _ w c R e Hk) in Hcache.
        -- cbn [fst snd] in Hcache. rewrite Hcache, written_lookup.
           eexists. split; [reflexivity |].
           specialize (Hrange (ticks w + 4 - 1)%nat). fold W. lia.
        -- specialize (Hrange (ticks w + 1)%nat). lia.
        -- specialize (Hrange (ticks w + 2)%nat). lia.
      * assert (Hc : counts_for ip request = false)
          by (unfold counts_for; rewrite Hip; apply andb_false_r).
        rewrite Hc, Z.add_0_r.
        assert (Hne : rate_key request <> SCOPE_PREFIX +:+ ip).
        { unfold rate_key. intros E. apply append_inj in E.
          apply String.eqb_neq in Hip. contradiction. }
        destruct Hroom as [Hroom | Hown].
        -- rewrite Hcache, written_lookup_room by assumption.
           exists e. split; [exact Hk | exact He].
        -- apply String.eqb_neq in Hip. exfalso. apply Hip, Hown. reflexivity.
    + rewrite Hcache. apply written_entries.
    + intros Hc. apply counts_for_spec in Hc as Hc'. destruct Hc' as [_ Hip].
      rewrite Hc.
      assert (Hkey : rate_key request = SCOPE_PREFIX +:+ ip)
        by (unfold rate_key; rewrite Hip; reflexivity).
      rewrite Hkey in *.
      assert (Hnb : next_bucket (SCOPE_PREFIX +:+ ip) w
                    = ({| count := c + 1; reset_at := R |}, 4%nat)).
      { apply (next_bucket_live _ w c R e Hk).
        - specialize (Hrange (ticks w + 1)%nat). lia.
        - specialize (Hrange (ticks w + 2)%nat). lia. }
      rewrite Hnb in *. cbn [fst snd count] in *. split.
      * intros Hle. eexists. split; [symmetry; apply Hallow, Hle | symmetry; exact Hcache].
      * exact Hdeny.
  - assert (Hc : counts_for ip request = false) by (unfold counts_for; rewrite Hrl; reflexivity).
    rewrite Hc, Z.add_0_r. rewrite OLM_out_of_scope by exact Hrl.
    destruct (Hframe request w) as (Hcache & _ & _). rewrite Hcache.
    split; [exists e; auto |]. split; [lia | discriminate].
Qed.

(** A run inside a live window of [ip]. *)
Lemma live_run requests : forall (w : World Store) c e,
  cache w !! (SCOPE_PREFIX +:+ ip) = Some ({| count := c; reset_at := R |}, e) ->
  T + Time.timedelta WINDOW_SECONDS <= R ->
  T + Time.timedelta WINDOW_SECONDS <= e ->
  (forall n,
     (ticks w <= n
      < ticks (serve_end (OffensiveLanguageMiddleware get_response) requests w))%nat ->
     T <= clock w n < T + Time.timedelta WINDOW_SECONDS) ->
  ((entries (cache w) + length requests <= MAX_ENTRIES)%nat \/
   Forall (fun r => rate_limited r = true -> _get_client_ip r = ip) requests) ->
  forall i request result wi,
    requests !! i = Some request ->
    serve (OffensiveLanguageMiddleware get_response) requests w !! i = Some (result, wi) ->
    counts_for ip request = true ->
    (exists e', cache wi !! (SCOPE_PREFIX +:+ ip)
                = Some ({| count := c + rank ip requests i; reset_at := R |}, e') /\
                T + Time.timedelta WINDOW_SECONDS <= e') /\
    (c + rank ip requests i <= MAX_MESSAGES ->
     exists w', get_response request w' = (result, wi) /\ cache w' = cache wi) /\
    (MAX_MESSAGES < c + rank ip requests i ->
     result = Returned (HttpResponseForbidden
                          "Rate limit exceeded: max 5 messages per minute.")).
Proof.
  set (W := Time.timedelta WINDOW_SECONDS).
  set (OLM := OffensiveLanguageMiddleware get_response).
  induction requests as [| r rs IH];
    intros w c e Hk HR He Hrange Hroom i request result wi Hi Ht Hcounts.
  - rewrite lookup_nil in Hi. discriminate.
  - pose proof (OLM_clock r w) as [Hclock Hticks]. fold OLM in Hclock, Hticks.
    pose proof (serve_end_frame rs (snd (OLM r w))) as [Hclk Htk]. fold OLM in Hclk, Htk.
    change (serve_end OLM (r :: rs) w) with (serve_end OLM rs (snd (OLM r w))) in Hrange.
    destruct (live_step r w c e Hk HR He) as ((e1 & Hk1 & He1) & Hent & Hres).
    { intros n Hn. apply Hrange. fold OLM in Hn. lia. }
    { destruct Hroom as [Hroom | Hown].
      - left. cbn [length] in Hroom. lia.
      - right. apply Forall_cons in Hown. tauto. }
    fold OLM in Hk1, Hent, Hres.
    assert (Hrw : OLM r w = OLM r w) by reflexivity.
    revert Hrw. generalize (OLM r w) at 2. intros rw Hrw.
    rewrite Hrw in *.
    cbn [serve] in Ht. fold OLM in Ht. rewrite Hrw in Ht.
    destruct i as [| j].
    + cbn in Hi, Ht. injection Hi as <-. injection Ht as ->.
      rewrite rank_head, Hcounts. rewrite Hcounts in Hk1, Hres.
      cbn [fst snd] in *. split; [eauto |].
      destruct (Hres eq_refl) as [Ha Hd]. split; [exact Ha | exact Hd].
    + cbn in Hi, Ht. rewrite rank_tail, Z.add_assoc.
      eapply (IH (snd rw) _ e1 Hk1 HR He1); [| | exact Hi | exact Ht | exact Hcounts].
      * intros n Hn. rewrite Hclock. apply Hrange. lia.
      * destruct Hroom as [Hroom | Hown].
        -- left. cbn [length] in Hroom. lia.
        -- right. apply Forall_cons in Hown. tauto.
Qed.
End Window.

(** A run that starts when [ip] has no live window: its first request
    opens one. *)
Lemma window_run ip first rest (w0 : World Store) :
  counts_for ip first = true ->
  no_live_window (SCOPE_PREFIX +:+ ip) w0 ->
  (forall n,
     (ticks w0 <= n
      < ticks (serve_end (OffensiveLanguageMiddleware get_response) (first :: rest) w0))%nat ->
     clock w0 (ticks w0) <= clock w0 n
     < clock w0 (ticks w0) + Time.timedelta WINDOW_SECONDS) ->
  ((entries (cache w0) + length (first :: rest) <= MAX_ENTRIES)%nat \/
   Forall (fun r => rate_limited r = true -> _get_client_ip r = ip) (first :: rest)) ->
  exists R,
    (R = clock w0 (ticks w0) + Time.timedelta WINDOW_SECONDS \/
     R = clock w0 (ticks w0 + 3)%nat + Time.timedelta WINDOW_SECONDS) /\
    clock w0 (ticks w0) + Time.timedelta WINDOW_SECONDS <= R /\
    forall i request result wi,
      (first :: rest) !! i = Some request ->
      serve (OffensiveLanguageMiddleware get_response) (first :: rest) w0 !! i
        = Some (result, wi) ->
      counts_for ip request = true ->
      (exists expiry,
         cache wi !! (SCOPE_PREFIX +:+ ip)
         = Some ({| count := rank ip (first :: rest) i; reset_at := R |}, expiry) /\
         clock w0 (ticks w0) + Time.timedelta WINDOW_SECONDS <= expiry) /\
      (rank ip (first :: rest) i <= MAX_MESSAGES ->
       exists w', get_response request w' = (result, wi) /\ cache w' = cache wi) /\
      (MAX_MESSAGES < rank ip (first :: rest) i ->
       result = Returned (HttpResponseForbidden
                            "Rate limit exceeded: max 5 messages per minute.")).
Proof.
  intros Hfirst Hfresh Hrange Hroom.
  apply counts_for_spec in Hfirst as Hfirst'. destruct Hfirst' as [Hrl Hip].
  assert (Hkey : rate_key first = SCOPE_PREFIX +:+ ip)
    by (unfold rate_key; rewrite Hip; reflexivity).
  pose proof (OLM_frame first w0 Hrl) as Hstep. cbv zeta in Hstep.
  rewrite Hkey in Hstep.
  set (key := SCOPE_PREFIX +:+ ip) in *.
  set (OLM := OffensiveLanguageMiddleware get_response) in *.
  assert (Hrw : OLM first w0 = OLM first w0) by reflexivity.
  revert Hrw. generalize (OLM first w0) at 2. intros rw Hrw.
  rewrite Hrw in Hstep.
  pose proof (serve_end_frame rest (snd rw)) as [Hclk Htk]. fold OLM in Hclk, Htk.
  change (serve_end OLM (first :: rest) w0) with (serve_end OLM rest (snd (OLM first w0)))
    in Hrange.
  rewrite Hrw in Hrange.
  assert (Hk4 : (ticks w0 + 4 <= ticks w0 + snd (next_bucket key w0))%nat)
    by (destruct (next_bucket_readings key w0) as [-> | ->]; lia).
  destruct Hstep as (Hcache & Hclock & Hticks & Hallow & Hdeny).
  unfold written in Hticks. cbn [ticks] in Hticks.
  assert (Hnb : exists R k,
             next_bucket key w0 = ({| count := 1; reset_at := R |}, k) /\
             (R = clock w0 (ticks w0) + Time.timedelta WINDOW_SECONDS \/
              R = clock w0 (ticks w0 + 3)%nat + Time.timedelta WINDOW_SECONDS) /\
             clock w0 (ticks w0) + Time.timedelta WINDOW_SECONDS <= R /\
             (k = 4 \/ k = 5)%nat).
  { destruct (next_bucket_fresh _ _ Hfresh) as [Hnb | Hnb]; rewrite Hnb in *;
      cbn [snd] in *; eexists _, _; (split; [reflexivity |]);
      (split; [auto |]); (split; [| auto]).
    - lia.
    - specialize (Hrange (ticks w0 + 3)%nat). lia. }
  destruct Hnb as (R & k & Hnb & Hwhich & HR & Hk).
  rewrite Hnb in *. cbn [fst snd count] in *.
  assert (Hstored : cache (snd rw) !! key
                    = Some ({| count := 1; reset_at := R |},
                            clock w0 (ticks w0 + k - 1)%nat
                            + Time.timedelta WINDOW_SECONDS)).
  { rewrite Hcache. apply written_lookup. }
  assert (Hexp : clock w0 (ticks w0) + Time.timedelta WINDOW_SECONDS
                 <= clock w0 (ticks w0 + k - 1)%nat + Time.timedelta WINDOW_SECONDS).
  { specialize (Hrange (ticks w0 + k - 1)%nat). lia. }
  assert (Hent : (entries (cache (snd rw)) <= S (entries (cache w0)))%nat)
    by (rewrite Hcache; apply written_entries).
  exists R. split; [exact Hwhich |]. split; [exact HR |].
  intros i request result wi Hi Ht Hcounts.
  cbn [serve] in Ht. fold OLM in Ht. rewrite Hrw in Ht.
  destruct i as [| j].
  - cbn in Hi, Ht. injection Hi as <-. injection Ht as ->.
    rewrite rank_head, Hfirst.
    cbn [fst snd] in *. split; [eauto |]. split.
    + intros _. eexists. split; [symmetry; apply Hallow; unfold MAX_MESSAGES; lia |].
      symmetry; exact Hcache.
    + unfold MAX_MESSAGES. intros Hj. exfalso. lia.
  - cbn in Hi, Ht. rewrite rank_tail, Hfirst.
    eapply (live_run ip (clock w0 (ticks w0)) R rest (snd rw) 1 _ Hstored HR Hexp);
      [| | exact Hi | exact Ht | exact Hcounts].
    + intros n Hn. rewrite Hclock. apply Hrange. unfold OLM in *. lia.
    + destruct Hroom as [Hroom | Hown].
      * left. cbn [length] in Hroom. lia.
      * right. apply Forall_cons in Hown. tauto.
Qed.
End Run.

Lemma rank_all ip requests i :
  Forall (fun r => counts_for ip r = true) requests -> (i < length requests)%nat ->
  rank ip requests i = Z.of_nat i + 1.
Proof.
  intros Hall. revert i. induction Hall as [| r rs Hr Hrs IH]; intros i Hi.
  - cbn in Hi. lia.
  - destruct i as [| j].
    + rewrite rank_head, Hr. reflexivity.
    + rewrite rank_tail, Hr, IH by (cbn [length] in Hi; lia). lia.
Qed.

Lemma rank_bounds ip requests i request :
  requests !! i = Some request -> counts_for ip request = true ->
  1 <= rank ip requests i <= Z.of_nat i + 1.
Proof.
  revert i. induction requests as [| r rs IH]; intros i Hi Hc.
  - rewrite lookup_nil in Hi. discriminate.
  - destruct i as [| j].
    + cbn in Hi. injection Hi as ->. rewrite rank_head, Hc. lia.
    + cbn in Hi. rewrite rank_tail. specialize (IH j Hi Hc).
      destruct (counts_for ip r); lia.
Qed.




Example seven_posts_statuses :
  map (fun rw => match fst rw with
                 | Returned r => status_code r
                 | Raised _ => 500
                 end)
      (serve (OffensiveLanguageMiddleware view_ok) (replicate 7 post_send)
         (world_at (∅ : Store) ten_am))
  = [200; 200; 200; 200; 200; 403; 403].
Proof. vm_compute. reflexivity. Qed.

(* ===================================================================== *)
(** ** Failures of the store *)
(* ===================================================================== *)

(** C4, as the code has it. The rate limiter has no handler for a
    failing store: when [cache.get] raises, or reads but [cache.set]
    raises, the exception leaves the rate limiter, the request is
    neither let through nor answered and the rest of the chain is not
    run. The logger, the time gate and the role gate never raise by
    themselves, on any backend; and on the local-memory cache, whose
    operations do not raise, the rate limiter too always lets the
    request through or answers it. *)
Theorem store_failure_propagates :
  (forall St (C : BaseCache St) (request : Request) (w : World St) (e : Exn),
     method request = "POST"%string -> has_prefix "/chats" (path request) ->
     backend_get (rate_key request) (clock w (ticks w + 1)%nat) (cache w) = inl e ->
     raises OffensiveLanguageMiddleware request w e (tick (tick w)) /\
     ~ (exists w', forwards OffensiveLanguageMiddleware request w w')) /\
  (forall St (C : BaseCache St) (request : Request) (w : World St) (e : Exn) o s,
     method request = "POST"%string -> has_prefix "/chats" (path request) ->
     backend_get (rate_key request) (clock w (ticks w + 1)%nat) (cache w) = inr (o, s) ->
     (forall b t, backend_set (rate_key request) b WINDOW_SECONDS t s = inl e) ->
     exists w', raises OffensiveLanguageMiddleware request w e w') /\
  (forall St (C : BaseCache St) (utcoffset : Z -> Z) (request : Request) (w : World St) mw,
     In mw [RequestLoggingMiddleware; RestrictAccessByTimeMiddleware utcoffset;
            RolepermissionMiddleware] ->
     exists w', forwards mw request w w' \/ exists response, rejects mw request w response w') /\
  (forall (request : Request) (w : World Store),
     exists w', forwards OffensiveLanguageMiddleware request w w' \/
                exists response, rejects OffensiveLanguageMiddleware request w response w').
Proof.
  split; [| split; [| split]].
  - intros St C request w e Hm Hp Hget.
    assert (Hrl : rate_limited request = true) by (apply rate_limited_spec; auto).
    assert (Hraises : raises OffensiveLanguageMiddleware request w e (tick (tick w))).
    { intros g. unfold OffensiveLanguageMiddleware. rewrite Hrl.
      unfold bind, timezone_now, cache_get, bind, read_clock.
      cbn [tick ticks clock cache]. destruct (ticks_plus w) as (E1 & _). rewrite E1.
      unfold rate_key in Hget. rewrite Hget. reflexivity. }
    split; [exact Hraises |].
    intros [w' Hf]. exact (forwards_not_raises _ _ _ _ _ _ Hf Hraises).
  - intros St C request w e o s Hm Hp Hget Hset.
    assert (Hrl : rate_limited request = true) by (apply rate_limited_spec; auto).
    unfold rate_key in Hget, Hset.
    assert (Hraise : forall g, exists w',
               OffensiveLanguageMiddleware g request w = (Raised e, w') /\
               w' = snd (OffensiveLanguageMiddleware view_ok request w)).
    { intros g. unfold OffensiveLanguageMiddleware. rewrite Hrl.
      unfold bind, timezone_now, cache_get, cache_set, bind, read_clock, ret.
      cbn [tick ticks clock cache]. destruct (ticks_plus w) as (E1 & _). rewrite E1.
      rewrite Hget.
      destruct o as [v |]; cbn [tick ticks clock cache with_cache count reset_at];
        destruct (_ >=? _); cbn [tick ticks clock cache with_cache count reset_at];
        destruct (_ >? _); cbn [tick ticks clock cache with_cache];
        rewrite Hset; eexists; split; reflexivity. }
    exists (snd (OffensiveLanguageMiddleware view_ok request w)).
    intros g. destruct (Hraise g) as (w' & Hg & ->). exact Hg.
  - intros St C utcoffset request w mw Hin.
    cbn [In] in Hin. destruct Hin as [<- | [<- | [<- | []]]].
    + eexists. left. intros g. rewrite logging_eq. cbv zeta. reflexivity.
    + exists (tick w).
      destruct (allowed (Time.hour (Time.fields_at (utcoffset (clock w (ticks w)))
                                      (clock w (ticks w))))) eqn:Ha;
        [left | right; eexists]; intros g; rewrite time_gate_eq; cbv zeta; rewrite Ha;
        reflexivity.
    + exists w.
      destruct (Py.startswith_any (path request) PROTECTED_PREFIXES
                && negb (is_allowed (user request))) eqn:Ha;
        [right; eexists | left]; intros g; rewrite role_gate_eq, Ha; reflexivity.
  - intros request w. destruct (rate_limited request) eqn:Hrl.
    + pose proof (OLM_LocMem_outcome request w Hrl) as Hout. cbv zeta in Hout.
      eexists. destruct Hout as [[_ Hf] | [_ Hr]]; [left; exact Hf | right; eexists; exact Hr].
    + exists w. left. intros g. apply OLM_out_of_scope, Hrl.
Qed.

(** With the cache server out of reach, a POST to /chats/send leaves the
    rate limiter as a ConnectionError. *)
Lemma store_failure_propagates_witness :
  raises OffensiveLanguageMiddleware post_send (world_at tt ten_am)
    (Exception "ConnectionError") (tick (tick (world_at tt ten_am))).
Proof.
  apply (proj1 store_failure_propagates unit UnreachableCache post_send (world_at tt ten_am)
           (Exception "ConnectionError")).
  - reflexivity.
  - exists "/send"%string. reflexivity.
  - reflexivity.
Defined.

(** The claim that a failing store lets the request through does not
    hold: with the cache server out of reach [cache.get] fails, the
    result of the rate limiter is the exception, and the request is not
    handed to the rest of the chain. *)
Lemma fail_open_counterexample :
  backend_get (rate_key post_send) (clock (world_at tt ten_am) 1%nat)
    (cache (world_at tt ten_am)) = inl (Exception "ConnectionError") /\
  OffensiveLanguageMiddleware view_ok post_send (world_at tt ten_am)
    = (Raised (Exception "ConnectionError"), tick (tick (world_at tt ten_am))) /\
  ~ (exists w', forwards OffensiveLanguageMiddleware post_send (world_at tt ten_am) w').
Proof.
  split; [reflexivity |]. split; [reflexivity |].
  intros [w' Hf]. specialize (Hf view_ok). discriminate Hf.
Qed.

(* ===================================================================== *)
(** ** Requests in flight at the same time *)
(* ===================================================================== *)

Section Threads.
Context {St : Type} `{BaseCache St}.
Variable get_response : @Handler St.

(** The rate limiter is its two halves one after the other. *)
Lemma olm_split request (w : World St) :
  rate_limited request = true ->
  OffensiveLanguageMiddleware get_response request w
  = (let* bucket := olm_read request in olm_write get_response request bucket) w.
Proof.
  intros Hrl. unfold OffensiveLanguageMiddleware, olm_read, olm_write. rewrite Hrl.
  reflexivity.
Qed.

(** A request that takes its steps without another one in between is
    served as by the rate limiter. *)
Lemma two_steps request (w : World St) :
  let s1 := step_thread get_response (Waiting request) w in
  step_thread get_response (fst s1) (snd s1)
  = (Finished (fst (OffensiveLanguageMiddleware get_response request w)),
     snd (OffensiveLanguageMiddleware get_response request w)).
Proof.
  cbv zeta. cbn [step_thread]. destruct (rate_limited request) eqn:Hrl.
  - rewrite olm_split by exact Hrl. unfold bind.
    destruct (olm_read request w) as [[e | b] w1]; reflexivity.
  - rewrite OLM_out_of_scope by exact Hrl. reflexivity.
Qed.

Lemma insert_middle (pre post : list Thread) (t t' : Thread) :
  <[length pre := t']> (pre ++ t :: post) = pre ++ t' :: post.
Proof.
  rewrite insert_app_r_alt by lia. rewrite Nat.sub_diag. reflexivity.
Qed.

Lemma serial_run requests : forall (pre : list Thread) (w : World St),
  run_schedule get_response
    (flat_map (fun i => [i; i]) (seq (length pre) (length requests)))
    (pre ++ map Waiting requests) w
  = (pre ++ map (fun rw => Finished (fst rw))
              (serve (OffensiveLanguageMiddleware get_response) requests w),
     serve_end (OffensiveLanguageMiddleware get_response) requests w).
Proof.
  induction requests as [| r rs IH]; intros pre w; [reflexivity |].
  cbn [length seq flat_map app map run_schedule].
  rewrite list_lookup_middle by reflexivity. rewrite insert_middle.
  rewrite list_lookup_middle by reflexivity. rewrite insert_middle.
  pose proof (two_steps r w) as Hs. cbv zeta in Hs. rewrite Hs. cbn [fst snd].
  specialize (IH (pre ++ [Finished (fst (OffensiveLanguageMiddleware get_response r w))])
                (snd (OffensiveLanguageMiddleware get_response r w))).
  rewrite length_app in IH. cbn [length] in IH. rewrite Nat.add_1_r in IH.
  rewrite <- !app_assoc in IH. cbn [app] in IH. rewrite IH.
  reflexivity.
Qed.

Lemma serial_serve requests (w : World St) :
  run_schedule get_response (serial (length requests)) (map Waiting requests) w
  = (map (fun rw => Finished (fst rw))
       (serve (OffensiveLanguageMiddleware get_response) requests w),
     serve_end (OffensiveLanguageMiddleware get_response) requests w).
Proof. exact (serial_run requests [] w). Qed.

End Threads.

(** *** On the local-memory cache *)

Lemma lookup_after_get_sub key k t (s : Store) x :
  after_get key t s !! k = Some x -> s !! k = Some x.
Proof.
  destruct (decide (key = k)) as [<- | Hne].
  - rewrite lookup_after_get_eq. destruct (s !! key) as [[v expiry] |]; [| discriminate].
    destruct (expiry <=? t); [discriminate | auto].
  - rewrite lookup_after_get_ne by exact Hne. auto.
Qed.

Lemma lookup_after_set_cases key k v timeout t (s : Store) x :
  after_set key v timeout t s !! k = Some x ->
  (k = key /\ x = (v, t + Time.timedelta timeout)) \/ s !! k = Some x.
Proof.
  destruct (decide (key = k)) as [<- | Hne].
  - rewrite lookup_after_set_eq. intros [= <-]. left. auto.
  - intros Hx. right. eapply lookup_after_set_other; eauto.
Qed.

Lemma store_ok_mono (w w' : World Store) :
  store_ok w -> cache w' = cache w -> clock w' = clock w -> (ticks w <= ticks w')%nat ->
  store_ok w'.
Proof.
  intros Hok Hc Hk Ht key b expiry Hb. rewrite Hc in Hb.
  destruct (Hok _ _ _ Hb) as (H1 & i & Hi & Hr). split; [exact H1 |].
  exists i. split; [lia | rewrite Hk; exact Hr].
Qed.

Lemma held_ok_mono (w w' : World Store) t :
  held_ok w t -> clock w' = clock w -> (ticks w <= ticks w')%nat -> held_ok w' t.
Proof.
  intros Hh Hk Ht. destruct t as [r | r b | res]; cbn [held_ok] in *; [exact I | | exact I].
  destruct Hh as (H0 & i & Hi & Hr). split; [exact H0 |].
  exists i. split; [lia | rewrite Hk; exact Hr].
Qed.

Lemma store_ok_fetched key (w : World Store) : store_ok w -> store_ok (fetched key w).
Proof.
  intros Hok k b expiry Hb. cbn [fetched cache] in Hb.
  apply lookup_after_get_sub in Hb. destruct (Hok _ _ _ Hb) as (H1 & i & Hi & Hr).
  split; [exact H1 |]. exists i. cbn [fetched ticks clock]. split; [lia | exact Hr].
Qed.

Lemma seen_bucket_ok key request (w : World Store) :
  store_ok w -> held_ok (fetched key w) (Holding request (seen_bucket key w)).
Proof.
  intros Hok. cbn [held_ok fetched ticks clock]. unfold seen_bucket.
  destruct (cache w !! key) as [[v expiry] |] eqn:Hk.
  - destruct (expiry <=? _).
    + cbn [count reset_at]. split; [lia |]. exists (ticks w). split; [lia | reflexivity].
    + destruct (Hok _ _ _ Hk) as (H1 & i & Hi & Hr). split; [lia |].
      exists i. split; [lia | exact Hr].
  - cbn [count reset_at]. split; [lia |]. exists (ticks w). split; [lia | reflexivity].
Qed.

Lemma put_bucket_readings b (w : World Store) :
  snd (put_bucket b w) = 2%nat \/ snd (put_bucket b w) = 3%nat.
Proof. unfold put_bucket. destruct (_ >=? _); auto. Qed.

Lemma store_ok_stored key request b (w : World Store) :
  store_ok w -> held_ok w (Holding request b) ->
  store_ok (stored key (fst (put_bucket b w)) (snd (put_bucket b w)) w).
Proof.
  intros Hok (H0 & i & Hi & Hr) k b' expiry Hb. cbn [stored cache ticks clock] in *.
  apply lookup_after_set_cases in Hb. destruct Hb as [[_ [= -> _]] | Hb].
  - unfold put_bucket. destruct (_ >=? _); cbn [fst snd count reset_at].
    + split; [lia |]. exists (ticks w + 1)%nat. split; [lia | reflexivity].
    + split; [lia |]. exists i. split; [lia | exact Hr].
  - destruct (Hok _ _ _ Hb) as (H1 & j & Hj & Hrj). split; [exact H1 |].
    exists j. split; [lia | exact Hrj].
Qed.

Section Schedules.
Variable get_response : @Handler Store.
Hypothesis Hframe : leaves_cache get_response.

Lemma olm_write_frame request b (w : World Store) :
  let key := rate_key request in
  let b' := fst (put_bucket b w) in
  let w' := stored key b' (snd (put_bucket b w)) w in
  let rw := olm_write get_response request b w in
  cache (snd rw) = cache w' /\ clock (snd rw) = clock w /\
  (ticks w + 2 <= ticks w')%nat /\ (ticks w' <= ticks (snd rw))%nat /\
  (count b' <= MAX_MESSAGES -> rw = get_response request w') /\
  (MAX_MESSAGES < count b' ->
   fst rw = Returned (HttpResponseForbidden "Rate limit exceeded: max 5 messages per minute.")).
Proof.
  cbv zeta. rewrite olm_write_LocMem. cbv zeta.
  assert (Ht : (ticks w + 2 <= ticks (stored (rate_key request) (fst (put_bucket b w))
                                        (snd (put_bucket b w)) w))%nat).
  { cbn [stored ticks]. destruct (put_bucket_readings b w) as [-> | ->]; lia. }
  destruct (count _ >? MAX_MESSAGES) eqn:Hc.
  - cbn [fst snd]. repeat split; try reflexivity; try lia.
  - destruct (Hframe request (stored (rate_key request) (fst (put_bucket b w))
                                (snd (put_bucket b w)) w)) as (H1 & H2 & H3).
    repeat split; try assumption; try lia.
Qed.

Lemma step_waiting request (w : World Store) :
  rate_limited request = true ->
  step_thread get_response (Waiting request) w
  = (Holding request (seen_bucket (rate_key request) w), fetched (rate_key request) w).
Proof.
  intros Hrl. cbn [step_thread]. rewrite Hrl, olm_read_LocMem. reflexivity.
Qed.

(** One step of one request keeps the store and the held buckets in
    order. *)
Lemma step_ok t (w : World Store) :
  store_ok w -> held_ok w t ->
  store_ok (snd (step_thread get_response t w)) /\
  held_ok (snd (step_thread get_response t w)) (fst (step_thread get_response t w)) /\
  clock (snd (step_thread get_response t w)) = clock w /\
  (ticks w <= ticks (snd (step_thread get_response t w)))%nat.
Proof.
  intros Hok Hheld. destruct t as [r | r b | res].
  - destruct (rate_limited r) eqn:Hrl.
    + rewrite step_waiting by exact Hrl. cbn [fst snd].
      split; [apply store_ok_fetched, Hok |]. split; [apply seen_bucket_ok, Hok |].
      cbn [fetched clock ticks]. split; [reflexivity | lia].
    + cbn [step_thread]. rewrite Hrl. cbn [fst snd held_ok].
      destruct (Hframe r w) as (Hc & Hk & Ht).
      split; [eapply store_ok_mono; eauto |]. auto.
  - cbn [step_thread fst snd held_ok].
    destruct (olm_write_frame r b w) as (Hc & Hk & Ht2 & Ht & _). cbv zeta in *.
    split; [| split; [exact I | split; [exact Hk | lia]]].
    eapply store_ok_mono; [apply (store_ok_stored (rate_key r) r b w Hok Hheld) | | |];
      [exact Hc | rewrite Hk; reflexivity | exact Ht].
  - cbn [step_thread fst snd]. auto.
Qed.

(** The store stays in order under every schedule. *)
Lemma run_schedule_ok schedule : forall threads (w : World Store),
  store_ok w -> Forall (held_ok w) threads ->
  store_ok (snd (run_schedule get_response schedule threads w)) /\
  Forall (held_ok (snd (run_schedule get_response schedule threads w)))
    (fst (run_schedule get_response schedule threads w)) /\
  length (fst (run_schedule get_response schedule threads w)) = length threads.
Proof.
  induction schedule as [| i rest IH]; intros threads w Hok Hall; [cbn; auto |].
  cbn [run_schedule]. destruct (threads !! i) as [t |] eqn:Hi; [| apply IH; assumption].
  assert (Ht : held_ok w t) by (eapply Forall_lookup_1; eauto).
  destruct (step_ok t w Hok Ht) as (Hok' & Hheld' & Hk & Hticks).
  destruct (IH (<[i := fst (step_thread get_response t w)]> threads)
               (snd (step_thread get_response t w)) Hok') as (H1 & H2 & H3).
  - apply Forall_insert; [| exact Hheld'].
    eapply Forall_impl; [exact Hall |]. intros x Hx. eapply held_ok_mono; eauto.
  - split; [exact H1 |]. split; [exact H2 |]. rewrite H3. apply length_insert.
Qed.

Lemma run_four t0 t1 (w : World Store) :
  run_schedule get_response [0; 1; 0; 1]%nat [t0; t1] w
  = let s1 := step_thread get_response t0 w in
    let s2 := step_thread get_response t1 (snd s1) in
    let s3 := step_thread get_response (fst s1) (snd s2) in
    let s4 := step_thread get_response (fst s2) (snd s3) in
    ([fst s3; fst s4], snd s4).
Proof. reflexivity. Qed.

Lemma run_two t0 t1 (w : World Store) :
  run_schedule get_response [0; 1]%nat [t0; t1] w
  = let s1 := step_thread get_response t0 w in
    let s2 := step_thread get_response t1 (snd s1) in
    ([fst s1; fst s2], snd s2).
Proof. reflexivity. Qed.

Lemma seen_bucket_live key (w : World Store) c R e :
  cache w !! key = Some ({| count := c; reset_at := R |}, e) ->
  clock w (ticks w + 1)%nat < e ->
  seen_bucket key w = {| count := c; reset_at := R |} /\
  cache (fetched key w) !! key = Some ({| count := c; reset_at := R |}, e).
Proof.
  intros Hk He. unfold seen_bucket. cbn [fetched cache].
  rewrite lookup_after_get_eq, Hk.
  destruct (e <=? _) eqn:E1; [lia | auto].
Qed.

(** Two requests of one client whose reads both come before the
    writes: both hold the bucket as the first one found it, and the
    second write repeats the first. *)
Lemma lost_update ip r1 r2 (w : World Store) c R e :
  counts_for ip r1 = true -> counts_for ip r2 = true ->
  cache w !! (SCOPE_PREFIX +:+ ip) = Some ({| count := c; reset_at := R |}, e) ->
  (forall n,
     (ticks w <= n
      < ticks (snd (run_schedule get_response [0; 1; 0; 1]%nat
                      [Waiting r1; Waiting r2] w)))%nat ->
     clock w n < R /\ clock w n < e) ->
  fst (run_schedule get_response [0; 1]%nat [Waiting r1; Waiting r2] w)
  = [Holding r1 {| count := c; reset_at := R |};
     Holding r2 {| count := c; reset_at := R |}] /\
  exists res1 res2 e',
    fst (run_schedule get_response [0; 1; 0; 1]%nat [Waiting r1; Waiting r2] w)
    = [Finished res1; Finished res2] /\
    cache (snd (run_schedule get_response [0; 1; 0; 1]%nat [Waiting r1; Waiting r2] w))
      !! (SCOPE_PREFIX +:+ ip)
    = Some ({| count := c + 1; reset_at := R |}, e') /\
    (c + 1 <= MAX_MESSAGES ->
     (exists wa, get_response r1 wa = (res1, snd (get_response r1 wa))) /\
     (exists wa, get_response r2 wa
                 = (res2, snd (run_schedule get_response [0; 1; 0; 1]%nat
                                 [Waiting r1; Waiting r2] w)))) /\
    (MAX_MESSAGES < c + 1 ->
     res1 = Returned (HttpResponseForbidden
                        "Rate limit exceeded: max 5 messages per minute.") /\
     res2 = Returned (HttpResponseForbidden
                        "Rate limit exceeded: max 5 messages per minute.")).
Proof.
  intros Hc1 Hc2 Hk Hrange.
  apply counts_for_spec in Hc1 as [Hrl1 Hip1]. apply counts_for_spec in Hc2 as [Hrl2 Hip2].
  assert (Hkey1 : rate_key r1 = SCOPE_PREFIX +:+ ip)
    by (unfold rate_key; rewrite Hip1; reflexivity).
  assert (Hkey2 : rate_key r2 = SCOPE_PREFIX +:+ ip)
    by (unfold rate_key; rewrite Hip2; reflexivity).
  set (key := SCOPE_PREFIX +:+ ip) in *.
  set (b := {| count := c; reset_at := R |}) in *.
  rewrite run_four in Hrange |- *. cbv zeta in Hrange |- *.
  rewrite (step_waiting r1 w Hrl1), Hkey1 in Hrange |- *. cbn [fst snd] in Hrange |- *.
  rewrite (step_waiting r2 _ Hrl2), Hkey2 in Hrange |- *. cbn [fst snd] in Hrange |- *.
  cbn [step_thread fst snd] in Hrange |- *.
  set (w2 := fetched key (fetched key w)) in *.
  pose proof (olm_write_frame r1 (seen_bucket key w) w2) as F1. cbv zeta in F1.
  rewrite Hkey1 in F1.
  set (rw1 := olm_write get_response r1 (seen_bucket key w) w2) in *.
  pose proof (olm_write_frame r2 (seen_bucket key (fetched key w)) (snd rw1)) as F2.
  cbv zeta in F2. rewrite Hkey2 in F2.
  set (rw2 := olm_write get_response r2 (seen_bucket key (fetched key w)) (snd rw1)) in *.
  destruct F1 as (Hcache1 & Hclock1 & Hlo1 & Hhi1 & Hallow1 & Hdeny1).
  destruct F2 as (Hcache2 & Hclock2 & Hlo2 & Hhi2 & Hallow2 & Hdeny2).
  assert (Ht2 : ticks w2 = (ticks w + 4)%nat) by (cbn [w2 fetched ticks]; lia).
  assert (Hclk2 : clock w2 = clock w) by reflexivity.
  cbn [stored ticks] in Hlo1, Hlo2, Hhi1, Hhi2.
  assert (Hlast : (ticks w + 6 <= ticks (snd rw1) /\ ticks (snd rw1) + 2 <= ticks (snd rw2))%nat).
  { destruct (put_bucket_readings (seen_bucket key w) w2) as [E | E]; rewrite E in *;
      destruct (put_bucket_readings (seen_bucket key (fetched key w)) (snd rw1)) as [E' | E'];
      rewrite E' in *; lia. }
  destruct (seen_bucket_live key w c R e Hk) as [Hb1 Hk1];
    [specialize (Hrange (ticks w + 1)%nat); lia |].
  destruct (seen_bucket_live key (fetched key w) c R e Hk1) as [Hb2 Hk2].
  { cbn [fetched ticks clock]. specialize (Hrange (ticks w + 2 + 1)%nat). lia. }
  fold b in Hb1, Hb2. rewrite Hb1, Hb2 in *.
  assert (Hp1 : put_bucket b w2 = ({| count := c + 1; reset_at := R |}, 2%nat)).
  { unfold put_bucket. rewrite Hclk2, Ht2. cbn [b reset_at count].
    destruct (_ >=? R) eqn:E; [| reflexivity].
    specialize (Hrange (ticks w + 4)%nat). lia. }
  assert (Hp2 : put_bucket b (snd rw1) = ({| count := c + 1; reset_at := R |}, 2%nat)).
  { unfold put_bucket. rewrite Hclock1, Hclk2. cbn [b reset_at count].
    destruct (_ >=? R) eqn:E; [| reflexivity].
    specialize (Hrange (ticks (snd rw1))). lia. }
  rewrite Hp1 in *. rewrite Hp2 in *. cbn [fst snd count] in *.
  split.
  { rewrite run_two. cbv zeta. rewrite (step_waiting r1 w Hrl1), Hkey1. cbn [fst snd].
    rewrite (step_waiting r2 _ Hrl2), Hkey2. cbn [fst snd]. rewrite Hb1, Hb2. reflexivity. }
  exists (fst rw1), (fst rw2). eexists. split; [reflexivity |]. split.
  - rewrite Hcache2. cbn [stored cache]. apply lookup_after_set_eq.
  - split.
    + intros Hle. split.
      * exists (stored key {| count := c + 1; reset_at := R |} 2 w2).
        rewrite <- (Hallow1 Hle). apply surjective_pairing.
      * exists (stored key {| count := c + 1; reset_at := R |} 2 (snd rw1)).
        rewrite <- (Hallow2 Hle). apply surjective_pairing.
    + intros Hlt. split; [apply Hdeny1, Hlt | apply Hdeny2, Hlt].
Qed.

End Schedules.

Lemma filter_from {A} (p : A -> bool) (l : list A) : forall k,
  (forall i x, l !! i = Some x -> (k <= i)%nat -> p x = true) ->
  (length l - k <= length (List.filter p l))%nat.
Proof.
  induction l as [| x l IH]; intros k Hp; [cbn; lia |].
  cbn [List.filter length]. destruct k as [| k].
  - rewrite (Hp 0%nat x eq_refl) by lia. cbn [length].
    specialize (IH 0%nat). rewrite Nat.sub_0_r in IH.
    assert (length l <= length (List.filter p l))%nat; [| lia].
    apply IH. intros i y Hi _. apply (Hp (S i) y Hi). lia.
  - specialize (IH k).
    assert (length l - k <= length (List.filter p l))%nat.
    { apply IH. intros i y Hi Hk. apply (Hp (S i) y Hi). lia. }
    destruct (p x); cbn [length]; lia.
Qed.

Lemma filter_map_length {A B} (p : B -> bool) (f : A -> B) (l : list A) :
  length (List.filter p (map f l)) = length (List.filter (fun a => p (f a)) l).
Proof.
  induction l as [| a l IH]; [reflexivity |]. cbn [map List.filter].
  destruct (p (f a)); cbn [length]; rewrite IH; reflexivity.
Qed.

(** Requests of one client served one at a time from a fresh window:
    all but the first MAX_MESSAGES are denied. *)
Lemma serial_denials (get_response : @Handler Store) ip requests (w : World Store) :
  leaves_cache get_response ->
  Forall (fun r => counts_for ip r = true) requests ->
  no_live_window (SCOPE_PREFIX +:+ ip) w ->
  (forall n,
     (ticks w <= n
      < ticks (serve_end (OffensiveLanguageMiddleware get_response) requests w))%nat ->
     clock w (ticks w) <= clock w n < clock w (ticks w) + Time.timedelta WINDOW_SECONDS) ->
  Z.of_nat (length requests) - MAX_MESSAGES
  <= Z.of_nat (length (List.filter denied
                         (fst (run_schedule get_response (serial (length requests))
                                 (map Waiting requests) w)))).
Proof.
  intros Hframe Hall Hfresh Hrange. rewrite serial_serve. cbn [fst].
  rewrite filter_map_length. cbn [denied].
  pose proof (filter_from (fun rw : Result HttpResponse * World Store => is_denial (fst rw))
                (serve (OffensiveLanguageMiddleware get_response) requests w) 5) as Hcount.
  rewrite serve_length in Hcount. unfold MAX_MESSAGES.
  assert (length requests - 5
          <= length (List.filter (fun rw : Result HttpResponse * World Store =>
                                    is_denial (fst rw))
                       (serve (OffensiveLanguageMiddleware get_response) requests w)))%nat;
    [| lia].
  apply Hcount. intros i [res wi] Hi H5.
  destruct requests as [| first rest];
    [cbn [serve] in Hi; rewrite lookup_nil in Hi; discriminate |].
  apply Forall_cons in Hall as Hall'. destruct Hall' as [Hfirst Hrest].
  destruct (window_run get_response Hframe ip first rest w Hfirst Hfresh Hrange)
    as (R & _ & _ & Hrun).
  { right. eapply Forall_impl; [exact Hall |]. intros r Hr _.
    apply counts_for_spec in Hr. tauto. }
  assert (Hlen : (i < length (first :: rest))%nat).
  { apply lookup_lt_Some in Hi. rewrite serve_length in Hi. exact Hi. }
  destruct (lookup_lt_is_Some_2 (first :: rest) i Hlen) as [request Hreq].
  assert (Hc : counts_for ip request = true).
  { rewrite Forall_lookup in Hall. exact (Hall i request Hreq). }
  destruct (Hrun i request res wi Hreq Hi Hc) as (_ & _ & Hdeny).
  rewrite (rank_all ip _ i Hall Hlen) in Hdeny. cbn [fst].
  rewrite Hdeny by (unfold MAX_MESSAGES; lia). reflexivity.
Qed.

(** Two requests of one client served one at a time inside a live
    window: the second write counts both. *)
Lemma serial_pair (get_response : @Handler Store) ip r1 r2 (w : World Store) c R e T :
  leaves_cache get_response ->
  counts_for ip r1 = true -> counts_for ip r2 = true ->
  cache w !! (SCOPE_PREFIX +:+ ip) = Some ({| count := c; reset_at := R |}, e) ->
  T + Time.timedelta WINDOW_SECONDS <= R ->
  T + Time.timedelta WINDOW_SECONDS <= e ->
  (forall n,
     (ticks w <= n
      < ticks (snd (run_schedule get_response (serial 2) [Waiting r1; Waiting r2] w)))%nat ->
     T <= clock w n < T + Time.timedelta WINDOW_SECONDS) ->
  exists res1 res2 e',
    fst (run_schedule get_response (serial 2) [Waiting r1; Waiting r2] w)
    = [Finished res1; Finished res2] /\
    cache (snd (run_schedule get_response (serial 2) [Waiting r1; Waiting r2] w))
      !! (SCOPE_PREFIX +:+ ip)
    = Some ({| count := c + 2; reset_at := R |}, e') /\
    (MAX_MESSAGES < c + 2 ->
     res2 = Returned (HttpResponseForbidden
                        "Rate limit exceeded: max 5 messages per minute.")).
Proof.
  intros Hframe Hc1 Hc2 Hk HR He Hrange.
  pose proof (serial_serve get_response [r1; r2] w) as Hs.
  cbn [length map] in Hs. rewrite Hs in Hrange |- *. cbn [fst snd] in Hrange |- *.
  set (OLM := OffensiveLanguageMiddleware get_response) in *.
  destruct (live_run get_response Hframe ip T R [r1; r2] w c e Hk HR He Hrange)
    with (i := 1%nat) (request := r2) (result := fst (OLM r2 (snd (OLM r1 w))))
         (wi := snd (OLM r2 (snd (OLM r1 w)))) as ((e' & Hstored & _) & _ & Hdeny).
  - right. repeat constructor; intros _; [apply counts_for_spec in Hc1 | apply counts_for_spec in Hc2];
      tauto.
  - reflexivity.
  - cbn [serve]. fold OLM. cbn. rewrite <- surjective_pairing. reflexivity.
  - exact Hc2.
  - rewrite rank_tail, rank_head, Hc1, Hc2 in Hstored, Hdeny.
    exists (fst (OLM r1 w)), (fst (OLM r2 (snd (OLM r1 w)))), e'.
    split; [reflexivity |]. split.
    + replace (c + 2) with (c + (1 + 1)) by lia. exact Hstored.
    + intros Hlt. apply Hdeny. lia.
Qed.



(* ===================================================================== *)
(** * Further properties *)
(* ===================================================================== *)

(** ** The client IP *)

Lemma split_head_spec sep s :
  occurs sep (Py.split_head sep s) = false /\
  exists tail, s = Py.split_head sep s +:+ tail /\
               (tail = EmptyString \/ head_char tail = Some sep).
Proof.
  induction s as [| c s [IHo (tail & IHs & IHt)]]; cbn [Py.split_head].
  - split; [reflexivity |]. exists EmptyString. auto.
  - destruct (Ascii.eqb c sep) eqn:E.
    + split; [reflexivity |]. apply Ascii.eqb_eq in E. subst c.
      exists (String sep s). split; [reflexivity | right; reflexivity].
    + cbn [occurs]. rewrite Ascii.eqb_sym, E, IHo. split; [reflexivity |].
      exists tail. split; [rewrite append_cons, <- IHs; reflexivity | exact IHt].
Qed.

Lemma lstrip_spec s :
  exists lead, s = lead +:+ Py.lstrip s /\ all_space lead = true /\
               (forall c, head_char (Py.lstrip s) = Some c -> Py.isspace c = false).
Proof.
  induction s as [| c s (lead & IHs & IHl & IHh)]; cbn [Py.lstrip].
  - exists EmptyString. repeat split. discriminate.
  - destruct (Py.isspace c) eqn:E.
    + exists (String c lead). cbn [all_space]. rewrite E, IHl. repeat split; [| exact IHh].
      rewrite append_cons, <- IHs. reflexivity.
    + exists EmptyString. repeat split. intros c' [= <-]. exact E.
Qed.

Lemma rstrip_spec s :
  exists trail, s = Py.rstrip s +:+ trail /\ all_space trail = true /\
                (forall c, last_char (Py.rstrip s) = Some c -> Py.isspace c = false) /\
                head_char (Py.rstrip s) = (if all_space s then None else head_char s).
Proof.
  induction s as [| c s (trail & IHs & IHt & IHl & IHh)]; cbn [Py.rstrip].
  - exists EmptyString. split; [reflexivity |]. split; [reflexivity |].
    split; [discriminate | reflexivity].
  - cbn [all_space head_char]. destruct (Py.rstrip s) as [| d r] eqn:Er.
    + destruct (Py.isspace c) eqn:E.
      * exists (String c trail). cbn [all_space]. rewrite E, IHt.
        split; [rewrite IHs at 1; reflexivity |]. split; [reflexivity |].
        split; [intros c' Hc; cbn in Hc; discriminate Hc |].
        cbn [head_char andb] in *. destruct (all_space s) eqn:Ea; [reflexivity |].
        destruct s; [discriminate Ea | discriminate IHh].
      * exists trail.
        split; [rewrite append_cons, <- IHs; reflexivity |]. split; [exact IHt |].
        split; [intros c' [= <-]; exact E | reflexivity].
    + exists trail.
      split; [rewrite append_cons, <- IHs; reflexivity |]. split; [exact IHt |].
      split.
      * intros c'. cbn [last_char]. exact (IHl c').
      * cbn [head_char andb]. destruct (Py.isspace c); [| reflexivity].
        cbn [head_char] in IHh. destruct (all_space s); [discriminate | reflexivity].
Qed.

Lemma append_assoc a b c : (a +:+ b) +:+ c = a +:+ (b +:+ c).
Proof.
  induction a as [| d a IH]; [reflexivity |]. rewrite !append_cons, IH. reflexivity.
Qed.

Lemma occurs_app c a b : occurs c (a +:+ b) = occurs c a || occurs c b.
Proof.
  induction a as [| d a IH]; [reflexivity |].
  rewrite append_cons. cbn [occurs]. rewrite IH, orb_assoc. reflexivity.
Qed.

Lemma lstrip_all_space s : all_space s = true -> Py.lstrip s = EmptyString.
Proof.
  induction s as [| c s IH]; [reflexivity |]. cbn [all_space Py.lstrip].
  destruct (Py.isspace c); [exact IH | discriminate].
Qed.

Lemma client_ip_xff (request : Request) (xff : string) :
  META request !! "HTTP_X_FORWARDED_FOR"%string = Some xff -> xff <> EmptyString ->
  _get_client_ip request = Py.strip (Py.split_head "," xff).
Proof.
  intros Hx Hne. unfold _get_client_ip. rewrite Hx. cbn [from_option default].
  destruct xff; [congruence | reflexivity].
Qed.

(** X1. With a non-empty forwarded-for header the client IP is the
    first comma-separated entry of the header with the whitespace around
    it removed: the header is blanks, the IP, blanks, and then nothing
    or a comma and the rest; the IP holds no comma and neither starts
    nor ends with whitespace. REMOTE_ADDR plays no part. *)
Theorem client_ip_from_forwarded_for (request : Request) (xff : string) :
  META request !! "HTTP_X_FORWARDED_FOR"%string = Some xff -> xff <> EmptyString ->
  let ip := _get_client_ip request in
  (exists lead trail tail,
     xff = lead +:+ ip +:+ trail +:+ tail /\
     all_space lead = true /\ all_space trail = true /\
     (tail = EmptyString \/ head_char tail = Some ","%char)) /\
  occurs "," ip = false /\
  (forall c, head_char ip = Some c -> Py.isspace c = false) /\
  (forall c, last_char ip = Some c -> Py.isspace c = false).
Proof.
  intros Hx Hne. cbv zeta. rewrite (client_ip_xff request xff Hx Hne). unfold Py.strip.
  destruct (split_head_spec "," xff) as (Hno & tail & Hs & Htail).
  destruct (lstrip_spec (Py.split_head "," xff)) as (lead & Hl & Hlead & Hhead).
  destruct (rstrip_spec (Py.lstrip (Py.split_head "," xff))) as (trail & Hr & Htrail & Hlast & Hh).
  split; [| split; [| split]].
  - exists lead, trail, tail. split; [| auto].
    rewrite Hs at 1. rewrite Hl at 1. rewrite Hr at 1.
    rewrite !append_assoc. reflexivity.
  - rewrite Hl, Hr, !occurs_app in Hno.
    apply orb_false_iff in Hno. destruct Hno as [_ Hno].
    apply orb_false_iff in Hno. tauto.
  - intros c Hc. rewrite Hh in Hc.
    destruct (all_space (Py.lstrip (Py.split_head "," xff))); [discriminate |].
    apply Hhead, Hc.
  - exact Hlast.
Qed.

Lemma client_ip_from_forwarded_for_witness :
  let ip := _get_client_ip forwarded_post in
  let ip' := _get_client_ip wrapped_forwarded_post in
  ip = "10.0.0.7"%string /\
  occurs "," ip = false /\
  (forall c, head_char ip = Some c -> Py.isspace c = false) /\
  (forall c, last_char ip = Some c -> Py.isspace c = false) /\
  ip' = "10.0.0.7"%string /\
  exists lead trail tail,
    String (ascii_of_nat 160) ("10.0.0.7" +:+ String (ascii_of_nat 133) ", 172.16.0.1")
    = lead +:+ ip' +:+ trail +:+ tail /\
    all_space lead = true /\ all_space trail = true /\
    (tail = EmptyString \/ head_char tail = Some ","%char).
Proof.
  cbv zeta. split; [reflexivity |].
  destruct (client_ip_from_forwarded_for forwarded_post " 10.0.0.7 , 172.16.0.1")
    as (_ & Hno & Hh & Hl); [reflexivity | discriminate |].
  split; [exact Hno |]. split; [exact Hh |]. split; [exact Hl |].
  split; [reflexivity |].
  destruct (client_ip_from_forwarded_for wrapped_forwarded_post
              (String (ascii_of_nat 160)
                 ("10.0.0.7" +:+ String (ascii_of_nat 133) ", 172.16.0.1")))
    as (Hdec & _); [reflexivity | discriminate |].
  exact Hdec.
Defined.

(** X2. The edges of the client IP. Without a forwarded-for header, or
    with an empty one, the IP is REMOTE_ADDR as it stands, and "0.0.0.0"
    when that is missing too. A header that is not empty but whose first
    entry is blank does not fall back: the IP is the empty string and
    the bucket is the one named by the bare prefix, shared by every such
    request. *)
Theorem client_ip_edges (request : Request) :
  (META request !! "HTTP_X_FORWARDED_FOR"%string = None \/
   META request !! "HTTP_X_FORWARDED_FOR"%string = Some EmptyString ->
   _get_client_ip request = default "0.0.0.0"%string (META request !! "REMOTE_ADDR"%string)) /\
  (forall xff,
     META request !! "HTTP_X_FORWARDED_FOR"%string = Some xff -> xff <> EmptyString ->
     all_space (Py.split_head "," xff) = true ->
     _get_client_ip request = EmptyString /\ rate_key request = "chat_rate_"%string).
Proof.
  split.
  - intros [Hx | Hx]; unfold _get_client_ip; rewrite Hx; reflexivity.
  - intros xff Hx Hne Hsp.
    assert (Hip : _get_client_ip request = EmptyString).
    { rewrite (client_ip_xff request xff Hx Hne). unfold Py.strip.
      rewrite (lstrip_all_space _ Hsp). reflexivity. }
    split; [exact Hip |]. unfold rate_key. rewrite Hip. reflexivity.
Qed.

Lemma client_ip_edges_witness :
  _get_client_ip post_send = "10.0.0.7"%string /\
  rate_key blank_forwarded_post = "chat_rate_"%string.
Proof.
  split.
  - destruct (client_ip_edges post_send) as [Hfall _].
    rewrite Hfall; [reflexivity | left; reflexivity].
  - destruct (client_ip_edges blank_forwarded_post) as [_ Hblank].
    apply (Hblank " , 10.0.0.7"%string); [reflexivity | discriminate | reflexivity].
Defined.

(** ** The rate limiter on any backend *)

Section AnyBackend.
Context {St : Type} `{BaseCache St}.

Ltac run_limiter Hrl Hip :=
  unfold OffensiveLanguageMiddleware; rewrite Hrl, Hip;
  unfold bind, timezone_now, cache_get, cache_set, bind, read_clock, ret;
  cbn [tick ticks clock cache with_cache].

Ltac finish_shape :=
  eexists; intros r g Hrl Hip; run_limiter Hrl Hip;
  match goal with Hg : backend_get _ _ _ = _ |- _ => rewrite Hg end;
  match goal with b := _ |- _ => subst b end;
  match goal with ov : option Bucket |- _ => destruct ov end;
  cbn [tick ticks clock cache with_cache count reset_at] in *;
  match goal with Hc : (_ >=? _) = _ |- _ => rewrite Hc end;
  cbn [tick ticks clock cache with_cache count reset_at];
  match goal with Ho : (_ >? _) = _ |- _ => rewrite Ho end;
  cbn [tick ticks clock cache with_cache count reset_at];
  match goal with Hs : backend_set _ _ _ _ _ = _ |- _ => rewrite Hs end;
  reflexivity.

Lemma OLM_shape (ip : string) (w : World St) :
  exists (o : option (Result HttpResponse)) (w' : World St),
    forall r g, rate_limited r = true -> _get_client_ip r = ip ->
      OffensiveLanguageMiddleware g r w
      = match o with None => g r w' | Some res => (res, w') end.
Proof.
  destruct (backend_get (SCOPE_PREFIX +:+ ip) (clock w (S (ticks w))) (cache w))
    as [e | [ov s]] eqn:Hget.
  - exists (Some (Raised e)). eexists. intros r g Hrl Hip.
    run_limiter Hrl Hip. rewrite Hget. reflexivity.
  - set (b0 := match ov with
               | Some v => v
               | None => {| count := 0;
                            reset_at := clock w (ticks w) + Time.timedelta WINDOW_SECONDS |}
               end).
    destruct (clock w (S (S (ticks w))) >=? reset_at b0) eqn:Hchk.
    + destruct (0 + 1 >? MAX_MESSAGES) eqn:Hover;
      destruct (backend_set (SCOPE_PREFIX +:+ ip)
                  {| count := 0 + 1;
                     reset_at := clock w (S (S (S (ticks w))))
                                 + Time.timedelta WINDOW_SECONDS |}
                  WINDOW_SECONDS (clock w (S (S (S (S (ticks w)))))) s) as [e | s'] eqn:Hset.
      all: first [ exists None; finish_shape
                 | exists (Some (Returned (HttpResponseForbidden
                      "Rate limit exceeded: max 5 messages per minute."))); finish_shape
                 | match goal with
                   | Hs : backend_set _ _ _ _ _ = inl ?e |- _ =>
                       exists (Some (Raised e)); finish_shape
                   end ].
    + destruct (count b0 + 1 >? MAX_MESSAGES) eqn:Hover;
      destruct (backend_set (SCOPE_PREFIX +:+ ip)
                  {| count := count b0 + 1; reset_at := reset_at b0 |}
                  WINDOW_SECONDS (clock w (S (S (S (ticks w))))) s) as [e | s'] eqn:Hset.
      all: first [ exists None; finish_shape
                 | exists (Some (Returned (HttpResponseForbidden
                      "Rate limit exceeded: max 5 messages per minute."))); finish_shape
                 | match goal with
                   | Hs : backend_set _ _ _ _ _ = inl ?e |- _ =>
                       exists (Some (Raised e)); finish_shape
                   end ].
Qed.

Lemma outcome_cases (mw : @Handler St -> Handler) r w o w' :
  (forall g, mw g r w = match o with None => g r w' | Some res => (res, w') end) ->
  (forall w1, forwards mw r w w1 <-> o = None /\ w1 = w') /\
  (forall response w1,
     rejects mw r w response w1 <-> o = Some (Returned response) /\ w1 = w') /\
  (forall e w1, raises mw r w e w1 <-> o = Some (Raised e) /\ w1 = w').
Proof.
  intros Hmw.
  pose proof (Hmw view_ok) as Hok.
  pose proof (Hmw (fun _ w => (Raised (Exception "probe"), w))) as Hbad.
  unfold view_ok, ret in Hok. cbv beta in Hbad.
  split; [| split].
  - intros w1. split.
    + intros Hf. pose proof (Hf view_ok) as H1.
      pose proof (Hf (fun _ w => (Raised (Exception "probe"), w))) as H2.
      unfold view_ok, ret in H1. cbv beta in H2.
      destruct o as [res |]; [congruence |]. split; [reflexivity | congruence].
    + intros [-> ->] g. apply Hmw.
  - intros response w1. split.
    + intros Hr. pose proof (Hr view_ok) as H1.
      pose proof (Hr (fun _ w => (Raised (Exception "probe"), w))) as H2.
      destruct o as [res |]; [| congruence]. split; congruence.
    + intros [-> ->] g. apply Hmw.
  - intros e w1. split.
    + intros Hr. pose proof (Hr view_ok) as H1.
      pose proof (Hr (fun _ w => (Raised (Exception "probe"), w))) as H2.
      destruct o as [res |]; [| congruence]. split; congruence.
    + intros [-> ->] g. apply Hmw.
Qed.

(** X3. The rate limiter looks at a POST to a chats endpoint only
    through its client IP: two such requests with the same IP get the
    same outcome from the same world (let through, answered 403 or an
    exception, leaving the same world), whatever their paths, users and
    other headers, on every backend. One bucket serves all the chats
    endpoints and all the users behind one address. *)
Theorem rate_limit_keyed_by_ip (r1 r2 : Request) (w : World St) :
  method r1 = "POST"%string -> has_prefix "/chats" (path r1) ->
  method r2 = "POST"%string -> has_prefix "/chats" (path r2) ->
  _get_client_ip r1 = _get_client_ip r2 ->
  (forall w', forwards OffensiveLanguageMiddleware r1 w w'
              <-> forwards OffensiveLanguageMiddleware r2 w w') /\
  (forall response w', rejects OffensiveLanguageMiddleware r1 w response w'
                       <-> rejects OffensiveLanguageMiddleware r2 w response w') /\
  (forall e w', raises OffensiveLanguageMiddleware r1 w e w'
                <-> raises OffensiveLanguageMiddleware r2 w e w').
Proof.
  intros Hm1 Hp1 Hm2 Hp2 Hip.
  assert (Hrl1 : rate_limited r1 = true) by (apply rate_limited_spec; auto).
  assert (Hrl2 : rate_limited r2 = true) by (apply rate_limited_spec; auto).
  destruct (OLM_shape (_get_client_ip r1) w) as (o & w0 & Hshape).
  destruct (outcome_cases OffensiveLanguageMiddleware r1 w o w0) as (F1 & R1 & E1);
    [intros g; apply Hshape; auto |].
  destruct (outcome_cases OffensiveLanguageMiddleware r2 w o w0) as (F2 & R2 & E2);
    [intros g; apply Hshape; auto |].
  split; [| split]; intros.
  - rewrite F1, F2. reflexivity.
  - rewrite R1, R2. reflexivity.
  - rewrite E1, E2. reflexivity.
Qed.
End AnyBackend.

Lemma rate_limit_keyed_by_ip_witness :
  forwards OffensiveLanguageMiddleware post_send (world_at (∅ : Store) ten_am)
    (written (rate_key post_send) {| count := 1; reset_at := ten_am + 60000000 |} 4
       (world_at (∅ : Store) ten_am))
  <-> forwards OffensiveLanguageMiddleware
        (request_of "POST" "/chats/admin/ban" "10.0.0.7" (Some alice))
        (world_at (∅ : Store) ten_am)
        (written (rate_key post_send) {| count := 1; reset_at := ten_am + 60000000 |} 4
           (world_at (∅ : Store) ten_am)).
Proof.
  apply (rate_limit_keyed_by_ip post_send
           (request_of "POST" "/chats/admin/ban" "10.0.0.7" (Some alice))
           (world_at (∅ : Store) ten_am)).
  - reflexivity.
  - exists "/send"%string. reflexivity.
  - reflexivity.
  - exists "/admin/ban"%string. reflexivity.
  - reflexivity.
Defined.

(** ** The rate limiter and the other clients *)

Lemma OLM_LocMem_cases request (w : World Store) :
  exists o w',
    (forall g, OffensiveLanguageMiddleware g request w
               = match o with None => g request w' | Some res => (res, w') end) /\
    (o = None \/
     o = Some (Returned (HttpResponseForbidden
                           "Rate limit exceeded: max 5 messages per minute."))) /\
    ((rate_limited request = false /\ o = None /\ w' = w) \/
     (rate_limited request = true /\
      w' = written (rate_key request) (fst (next_bucket (rate_key request) w))
             (snd (next_bucket (rate_key request) w)) w)).
Proof.
  destruct (rate_limited request) eqn:Hrl.
  - destruct (count (fst (next_bucket (rate_key request) w)) >? MAX_MESSAGES) eqn:Hc.
    + eexists (Some _), _. split; [| split; [right; reflexivity | right; split; reflexivity]].
      intros g. rewrite OLM_LocMem by exact Hrl. cbv zeta. rewrite Hc. reflexivity.
    + exists None. eexists. split; [| split; [left; reflexivity | right; split; reflexivity]].
      intros g. rewrite OLM_LocMem by exact Hrl. cbv zeta. rewrite Hc. reflexivity.
  - exists None, w. split; [| split; [left; reflexivity | left; auto]].
    intros g. apply OLM_out_of_scope, Hrl.
Qed.
(** X4. On the local-memory cache a request never changes the entry
    of another client, it can only push it out: whether the rate limiter
    lets the request through or answers it, an entry found afterwards
    under a key other than the request's own is the one that was there
    before, and while the cache holds fewer than MAX_ENTRIES (300)
    entries every other key has its entry as it was; with 300 entries or
    more the write culls a third of them, least recently used first.
    The log sinks and the clock are as they were. *)
Theorem rate_limit_touches_one_key (request : Request) (w w' : World Store)
  (key' : string) :
  key' <> rate_key request ->
  forwards OffensiveLanguageMiddleware request w w' \/
  (exists response, rejects OffensiveLanguageMiddleware request w response w') ->
  (forall v, cache w' !! key' = Some v -> cache w !! key' = Some v) /\
  ((entries (cache w) < MAX_ENTRIES)%nat -> cache w' !! key' = cache w !! key') /\
  (entries (cache w') <= S (entries (cache w)))%nat /\
  request_file w' = request_file w /\ console w' = console w /\ clock w' = clock w.
Proof.
  intros Hne Hout.
  destruct (OLM_LocMem_cases request w) as (o & w0 & Hshape & _ & Hw0).
  destruct (outcome_cases OffensiveLanguageMiddleware request w o w0 Hshape) as (F & R & _).
  assert (Hw : w' = w0).
  { destruct Hout as [Hf | [response Hr]]; [apply F in Hf | apply R in Hr]; tauto. }
  subst w'. destruct Hw0 as [(_ & _ & ->) | (_ & ->)].
  - repeat split; auto.
  - split; [intros v; apply written_lookup_other; congruence |].
    split; [intros Hroom; apply written_lookup_room; [congruence | exact Hroom] |].
    split; [apply written_entries |].
    unfold written. cbn. auto.
Qed.

Lemma rate_limit_touches_one_key_witness :
  cache (written (rate_key post_send)
           (fst (next_bucket (rate_key post_send)
                   (world_at ({[ "chat_rate_10.0.0.8"%string :=
                                  ({| count := 3; reset_at := ten_am + 30000000 |},
                                   ten_am + 40000000) ]} : Store) ten_am)))
           (snd (next_bucket (rate_key post_send)
                   (world_at ({[ "chat_rate_10.0.0.8"%string :=
                                  ({| count := 3; reset_at := ten_am + 30000000 |},
                                   ten_am + 40000000) ]} : Store) ten_am)))
           (world_at ({[ "chat_rate_10.0.0.8"%string :=
                          ({| count := 3; reset_at := ten_am + 30000000 |},
                           ten_am + 40000000) ]} : Store) ten_am))
    !! "chat_rate_10.0.0.8"%string
  = Some ({| count := 3; reset_at := ten_am + 30000000 |}, ten_am + 40000000).
Proof.
  match goal with
  | |- cache ?w' !! ?k = _ =>
      destruct (rate_limit_touches_one_key post_send
                  (world_at ({[ "chat_rate_10.0.0.8"%string :=
                                 ({| count := 3; reset_at := ten_am + 30000000 |},
                                  ten_am + 40000000) ]} : Store) ten_am) w' k)
        as (_ & Hc & _)
  end.
  - vm_compute. discriminate.
  - match goal with
    | |- forwards _ _ ?w _ \/ _ =>
        destruct (OLM_LocMem_outcome post_send w eq_refl) as [[_ Hf] | [_ Hr]]
    end; [left; exact Hf | right; eexists; exact Hr].
  - rewrite Hc; [reflexivity | vm_compute; lia].
Defined.

Lemma next_bucket_local key (w1 w2 : World Store) :
  clock w1 = clock w2 -> ticks w1 = ticks w2 -> cache w1 !! key = cache w2 !! key ->
  next_bucket key w1 = next_bucket key w2.
Proof.
  intros Hc Ht Hk. unfold next_bucket, seen_bucket. rewrite Hc, Ht, Hk. reflexivity.
Qed.

(** X5. On the local-memory cache the decision for a request depends
    on the store only through the entry of the request's own key: in two
    worlds with the same clock that agree on that entry the rate limiter
    decides alike and writes the same entry, whatever the other clients
    have stored. *)
Theorem rate_limit_ignores_other_clients (request : Request) (w1 w2 : World Store) :
  clock w1 = clock w2 -> ticks w1 = ticks w2 ->
  cache w1 !! rate_key request = cache w2 !! rate_key request ->
  (forall w1', forwards OffensiveLanguageMiddleware request w1 w1' ->
     exists w2', forwards OffensiveLanguageMiddleware request w2 w2' /\
                 cache w2' !! rate_key request = cache w1' !! rate_key request) /\
  (forall response w1', rejects OffensiveLanguageMiddleware request w1 response w1' ->
     exists w2', rejects OffensiveLanguageMiddleware request w2 response w2' /\
                 cache w2' !! rate_key request = cache w1' !! rate_key request).
Proof.
  intros Hc Ht Hk.
  destruct (rate_limited request) eqn:Hrl.
  - pose proof (next_bucket_local _ _ _ Hc Ht Hk) as Hnb.
    destruct (OLM_LocMem_cases request w1) as (o1 & v1 & S1 & _ & [(Hx & _) | (_ & ->)]);
      [congruence |].
    destruct (outcome_cases _ _ _ _ _ S1) as (F1 & R1 & _).
    pose proof (OLM_LocMem_outcome request w2 Hrl) as Hout2. cbv zeta in Hout2.
    pose proof (OLM_LocMem_outcome request w1 Hrl) as Hout1. cbv zeta in Hout1.
    rewrite <- Hnb in Hout2.
    assert (Hsame : cache (written (rate_key request) (fst (next_bucket (rate_key request) w1))
                             (snd (next_bucket (rate_key request) w1)) w2) !! rate_key request
                    = cache (written (rate_key request) (fst (next_bucket (rate_key request) w1))
                               (snd (next_bucket (rate_key request) w1)) w1) !! rate_key request).
    { rewrite !written_lookup, Hc, Ht. reflexivity. }
    split.
    + intros w1' Hf. apply F1 in Hf. destruct Hf as [-> ->].
      eexists. split; [| exact Hsame].
      destruct Hout2 as [[_ Hf2] | [Hgt Hr2]]; [exact Hf2 |].
      destruct Hout1 as [[Hle _] | [_ Hr1]]; [lia |].
      apply R1 in Hr1. destruct Hr1 as [Hr1 _]. discriminate.
    + intros response w1' Hr. apply R1 in Hr. destruct Hr as [-> ->].
      eexists. split; [| exact Hsame].
      destruct Hout1 as [[_ Hf1] | [Hgt Hr1]].
      * apply F1 in Hf1. destruct Hf1 as [Hf1 _]. discriminate.
      * apply R1 in Hr1. destruct Hr1 as [[= ->] _].
        destruct Hout2 as [[Hle _] | [_ Hr2]]; [lia | exact Hr2].
  - split.
    + intros w1' Hf. exists w2. split; [intros g; apply OLM_out_of_scope, Hrl |].
      assert (w1' = w1); [| subst; auto].
      pose proof (Hf view_ok) as Hv. rewrite OLM_out_of_scope in Hv by exact Hrl.
      unfold view_ok, ret in Hv. congruence.
    + intros response w1' Hr. exfalso.
      pose proof (Hr (fun _ w => (Raised (Exception "probe"), w))) as Hv.
      rewrite OLM_out_of_scope in Hv by exact Hrl. discriminate.
Qed.

Lemma rate_limit_ignores_other_clients_witness :
  (forall w1',
     forwards OffensiveLanguageMiddleware post_send (world_at (∅ : Store) ten_am) w1' ->
     exists w2',
       forwards OffensiveLanguageMiddleware post_send
         (world_at ({[ "chat_rate_10.0.0.8"%string :=
                        ({| count := 9; reset_at := ten_am + 30000000 |},
                         ten_am + 40000000) ]} : Store) ten_am) w2' /\
       cache w2' !! rate_key post_send = cache w1' !! rate_key post_send) /\
  (forall response w1',
     rejects OffensiveLanguageMiddleware post_send (world_at (∅ : Store) ten_am)
       response w1' ->
     exists w2',
       rejects OffensiveLanguageMiddleware post_send
         (world_at ({[ "chat_rate_10.0.0.8"%string :=
                        ({| count := 9; reset_at := ten_am + 30000000 |},
                         ten_am + 40000000) ]} : Store) ten_am) response w2' /\
       cache w2' !! rate_key post_send = cache w1' !! rate_key post_send).
Proof.
  apply (rate_limit_ignores_other_clients post_send (world_at (∅ : Store) ten_am)
           (world_at ({[ "chat_rate_10.0.0.8"%string :=
                          ({| count := 9; reset_at := ten_am + 30000000 |},
                           ten_am + 40000000) ]} : Store) ten_am)).
  - reflexivity.
  - reflexivity.
  - reflexivity.
Defined.


(** ** The chain as a whole *)

Lemma chain_after_time_gate {St} `{BaseCache St} `{ErrorPages} utcoffset (g : @Handler St)
  request w :
  let now := clock w (ticks w + 1)%nat in
  let line := Time.strftime (clock w (ticks w)) "%Y-%m-%d %H:%M:%S"
              +:+ " - User: " +:+ log_user request +:+ " - Path: " +:+ path request in
  let w2 := {| cache := cache w;
               request_file := request_file w ++ [line];
               console := console w ++ [line];
               clock := clock w; ticks := (ticks w + 2)%nat |} in
  chain utcoffset g request w =
    if allowed (Time.hour (Time.fields_at (utcoffset now) now))
    then convert_exception_to_response
           (OffensiveLanguageMiddleware
              (convert_exception_to_response (RolepermissionMiddleware g))) request w2
    else (Returned (HttpResponseForbidden
                      "Chat is closed. Please come back during allowed hours."), w2).
Proof.
  cbv zeta. rewrite chain_eq, logging_eq. cbv zeta. rewrite time_gate_eq. cbv zeta.
  cbn [clock ticks]. destruct (ticks_plus w) as (E1 & E2 & _). rewrite E1.
  match goal with
  | |- context [tick ?v] =>
      replace (tick v) with
        {| cache := cache w;
           request_file := request_file w ++
             [Time.strftime (clock w (ticks w)) "%Y-%m-%d %H:%M:%S"
              +:+ " - User: " +:+ log_user request +:+ " - Path: " +:+ path request];
           console := console w ++
             [Time.strftime (clock w (ticks w)) "%Y-%m-%d %H:%M:%S"
              +:+ " - User: " +:+ log_user request +:+ " - Path: " +:+ path request];
           clock := clock w; ticks := (ticks w + 2)%nat |}
        by (apply world_eq; cbn [tick cache request_file console clock ticks];
            try reflexivity; lia)
  end.
  reflexivity.
Qed.

(** What the wrapped role gate does with a request the rate limiter
    handed on. *)
Lemma convert_role_gate_eq {St} `{BaseCache St} `{ErrorPages} (g : @Handler St) request w :
  convert_exception_to_response (RolepermissionMiddleware g) request w =
    if Py.startswith_any (path request) PROTECTED_PREFIXES && negb (is_allowed (user request))
    then (Returned (HttpResponseForbidden "Forbidden: admin/moderator role required."), w)
    else convert_exception_to_response g request w.
Proof. rewrite convert_role_gate, role_gate_eq. reflexivity. Qed.

(** The chain never lets an exception out. *)
Lemma chain_returns {St} `{BaseCache St} `{ErrorPages} utcoffset (g : @Handler St) request w :
  exists response, fst (chain utcoffset g request w) = Returned response.
Proof.
  unfold chain, load_middleware, MIDDLEWARE. cbn [fold_right].
  unfold convert_exception_to_response at 1.
  match goal with |- context [match ?x with _ => _ end] => destruct x as [[e | r] w'] end;
    eexists; reflexivity.
Qed.

(** X6. How the four layers compose (settings.MIDDLEWARE, each layer
    wrapped by Django's exception handler), on any backend. The logger
    writes its line, then the time gate decides; when it is closed the
    answer is its 403 and nothing else runs. When it is open the rate
    limiter runs in the world the logger and the time gate left: its
    answer is the chain's, so a request over the limit gets the
    rate-limit answer even on a protected path, and its exception (a
    failing store) becomes the chain's answer as the response Django
    builds for it, the rest of the chain not being run; and when it lets
    the request through the role gate decides, answering 403 itself or
    handing the request on. No exception leaves the chain. *)
Theorem chain_decision_order {St} `{BaseCache St} `{ErrorPages} (utcoffset : Z -> Z)
  (request : Request) (w : World St) :
  let now := clock w (ticks w + 1)%nat in
  let hour := Time.hour (Time.fields_at (utcoffset now) now) in
  let line := Time.strftime (clock w (ticks w)) "%Y-%m-%d %H:%M:%S"
              +:+ " - User: " +:+ log_user request +:+ " - Path: " +:+ path request in
  let w2 := {| cache := cache w;
               request_file := request_file w ++ [line];
               console := console w ++ [line];
               clock := clock w; ticks := (ticks w + 2)%nat |} in
  let role_denied :=
    Py.startswith_any (path request) PROTECTED_PREFIXES
    && negb (is_allowed (user request)) in
  (allowed hour = false ->
   rejects (chain utcoffset) request w
     (HttpResponseForbidden "Chat is closed. Please come back during allowed hours.") w2) /\
  (allowed hour = true ->
   (forall e w3, raises OffensiveLanguageMiddleware request w2 e w3 ->
                 rejects (chain utcoffset) request w (response_for_exception e) w3) /\
   (forall response w3, rejects OffensiveLanguageMiddleware request w2 response w3 ->
                        rejects (chain utcoffset) request w response w3) /\
   (forall w3, forwards OffensiveLanguageMiddleware request w2 w3 ->
      (role_denied = true ->
       rejects (chain utcoffset) request w
         (HttpResponseForbidden "Forbidden: admin/moderator role required.") w3) /\
      (role_denied = false -> hands_on (chain utcoffset) request w w3))) /\
  (forall get_response,
     exists response, fst (chain utcoffset get_response request w) = Returned response) /\
  (forall e w', ~ raises (chain utcoffset) request w e w').
Proof.
  cbv zeta. split; [| split; [| split]].
  - intros Ha g. rewrite chain_after_time_gate. cbv zeta. rewrite Ha. reflexivity.
  - intros Ha. split; [| split].
    + intros e w3 Hr g. rewrite chain_after_time_gate. cbv zeta. rewrite Ha.
      apply convert_raised, Hr.
    + intros response w3 Hr g. rewrite chain_after_time_gate. cbv zeta. rewrite Ha.
      apply convert_returned, Hr.
    + intros w3 Hf. split; intros Hrole g; rewrite chain_after_time_gate; cbv zeta;
        rewrite Ha; unfold convert_exception_to_response at 1; rewrite Hf;
        fold (convert_exception_to_response
                (convert_exception_to_response (RolepermissionMiddleware g)) request w3);
        rewrite convert_idem, convert_role_gate_eq, Hrole; reflexivity.
  - intros g. apply chain_returns.
  - intros e w' Hr. destruct (chain_returns utcoffset view_ok request w) as [response Hx].
    rewrite (Hr view_ok) in Hx. discriminate Hx.
Qed.

(** At 22:00 the time gate answers; at 10:00 with the cache server out
    of reach the answer is the error page of the limiter's
    ConnectionError. *)
Lemma chain_decision_order_witness :
  rejects (chain (fun _ => 0)) post_send (world_at tt ten_pm)
    (HttpResponseForbidden "Chat is closed. Please come back during allowed hours.")
    {| cache := tt;
       request_file := ["2023-11-14 22:00:00 - User: anonymous - Path: /chats/send"%string];
       console := ["2023-11-14 22:00:00 - User: anonymous - Path: /chats/send"%string];
       clock := fun n => ten_pm + Z.of_nat n; ticks := 2 |} /\
  rejects (chain (fun _ => 0)) post_send (world_at tt ten_am)
    {| status_code := 500; content := "Server Error (500)" |}
    {| cache := tt;
       request_file := ["2023-11-15 10:00:00 - User: anonymous - Path: /chats/send"%string];
       console := ["2023-11-15 10:00:00 - User: anonymous - Path: /chats/send"%string];
       clock := fun n => ten_am + Z.of_nat n; ticks := 4 |}.
Proof.
  split.
  - destruct (chain_decision_order (fun _ => 0) post_send (world_at tt ten_pm)) as [Hc _].
    apply Hc. reflexivity.
  - destruct (chain_decision_order (fun _ => 0) post_send (world_at tt ten_am))
      as (_ & Ho & _).
    destruct Ho as (Hraise & _); [reflexivity |].
    apply (Hraise (Exception "ConnectionError")). intros g. reflexivity.
Defined.

Lemma protected_in_scope (p : string) :
  has_prefix "/chats/admin" p \/ has_prefix "/chats/moderate" p -> has_prefix "/chats" p.
Proof.
  intros [[rest ->] | [rest ->]]; [exists ("/admin" +:+ rest) | exists ("/moderate" +:+ rest)];
    reflexivity.
Qed.

(** X7. A POST that the role gate turns away has been counted. Both
    protected prefixes lie inside the rate-limited prefix and the rate
    limiter runs first, so during open hours a POST to a protected path
    by a client whose live bucket holds a count under the limit is
    answered "Forbidden: admin/moderator role required." and leaves the
    count one higher, with reset_at unchanged. *)
Theorem role_denied_post_is_counted (utcoffset : Z -> Z) (request : Request)
  (w : World Store) (c R e : Z) :
  let now := clock w (ticks w + 1)%nat in
  START_HOUR <= Time.hour (Time.fields_at (utcoffset now) now) < END_HOUR ->
  method request = "POST"%string ->
  has_prefix "/chats/admin" (path request) \/ has_prefix "/chats/moderate" (path request) ->
  is_allowed (user request) = false ->
  cache w !! rate_key request = Some ({| count := c; reset_at := R |}, e) ->
  clock w (ticks w + 3)%nat < e ->
  clock w (ticks w + 4)%nat < R ->
  c < MAX_MESSAGES ->
  exists w',
    rejects (chain utcoffset) request w
      (HttpResponseForbidden "Forbidden: admin/moderator role required.") w' /\
    cache w' !! rate_key request
    = Some ({| count := c + 1; reset_at := R |},
            clock w (ticks w + 5)%nat + Time.timedelta WINDOW_SECONDS).
Proof.
  cbv zeta. intros Hh Hm Hp Hna Hk He HR Hc.
  assert (Hrl : rate_limited request = true)
    by (apply rate_limited_spec; split; [exact Hm | apply protected_in_scope, Hp]).
  apply allowed_spec in Hh. apply protected_spec in Hp.
  set (line := Time.strftime (clock w (ticks w)) "%Y-%m-%d %H:%M:%S"
               +:+ " - User: " +:+ log_user request +:+ " - Path: " +:+ path request).
  set (w2 := {| cache := cache w;
                request_file := request_file w ++ [line];
                console := console w ++ [line];
                clock := clock w; ticks := (ticks w + 2)%nat |}).
  assert (Hnb : next_bucket (rate_key request) w2
                = ({| count := c + 1; reset_at := R |}, 4%nat)).
  { apply (next_bucket_live (rate_key request) w2 c R e); subst w2; cbn [cache clock ticks].
    - exact Hk.
    - replace (ticks w + 2 + 1)%nat with (ticks w + 3)%nat by lia. exact He.
    - replace (ticks w + 2 + 2)%nat with (ticks w + 4)%nat by lia. exact HR. }
  exists (written (rate_key request) {| count := c + 1; reset_at := R |} 4 w2). split.
  - intros g. rewrite chain_after_time_gate. cbv zeta. fold line. fold w2. rewrite Hh.
    apply convert_returned.
    rewrite OLM_LocMem by exact Hrl. cbv zeta. rewrite Hnb. cbn [fst snd count].
    destruct (c + 1 >? MAX_MESSAGES) eqn:Hover; [lia |].
    rewrite convert_role_gate_eq, Hp, Hna. reflexivity.
  - rewrite written_lookup. subst w2. cbn [clock ticks].
    replace (ticks w + 2 + 4 - 1)%nat with (ticks w + 5)%nat by lia. reflexivity.
Qed.

Lemma role_denied_post_is_counted_witness :
  exists w',
    rejects (chain (fun _ => 0))
      (request_of "POST" "/chats/admin/ban" "10.0.0.7" (Some bob))
      (world_at ({[ "chat_rate_10.0.0.7"%string :=
                     ({| count := 2; reset_at := ten_am + 30000000 |},
                      ten_am + 40000000) ]} : Store) ten_am)
      (HttpResponseForbidden "Forbidden: admin/moderator role required.") w' /\
    cache w' !! "chat_rate_10.0.0.7"%string
    = Some ({| count := 2 + 1; reset_at := ten_am + 30000000 |}, ten_am + 5 + 60000000).
Proof.
  apply (role_denied_post_is_counted (fun _ => 0)
           (request_of "POST" "/chats/admin/ban" "10.0.0.7" (Some bob))
           (world_at ({[ "chat_rate_10.0.0.7"%string :=
                          ({| count := 2; reset_at := ten_am + 30000000 |},
                           ten_am + 40000000) ]} : Store) ten_am)
           2 (ten_am + 30000000) (ten_am + 40000000)).
  - vm_compute. split; [discriminate | reflexivity].
  - reflexivity.
  - left. exists "/ban"%string. reflexivity.
  - reflexivity.
  - reflexivity.
  - cbn [clock world_at ticks]. lia.
  - cbn [clock world_at ticks]. lia.
  - reflexivity.
Defined.

(** X8. A request that is not a POST to a chats endpoint never touches
    the store, on any backend, reachable or not: the chain hands it on
    to the rest of the chain or answers 403 (closed hours, role), never
    raises, and leaves the cache as it was. *)
Theorem chain_out_of_scope_skips_store {St} `{BaseCache St} `{ErrorPages}
  (utcoffset : Z -> Z) (request : Request) (w : World St) :
  method request <> "POST"%string \/ ~ has_prefix "/chats" (path request) ->
  exists w',
    cache w' = cache w /\
    (hands_on (chain utcoffset) request w w' \/
     exists response,
       status_code response = 403 /\ rejects (chain utcoffset) request w response w') /\
    forall e w'', ~ raises (chain utcoffset) request w e w''.
Proof.
  intros Hout.
  assert (Hrl : rate_limited request = false).
  { destruct (rate_limited request) eqn:Hrl; [| reflexivity].
    apply rate_limited_spec in Hrl. tauto. }
  assert (Hstep : forall g w2,
            convert_exception_to_response
              (OffensiveLanguageMiddleware
                 (convert_exception_to_response (RolepermissionMiddleware g))) request w2
            = if Py.startswith_any (path request) PROTECTED_PREFIXES
                 && negb (is_allowed (user request))
              then (Returned (HttpResponseForbidden
                                "Forbidden: admin/moderator role required."), w2)
              else convert_exception_to_response g request w2).
  { intros g w2. unfold convert_exception_to_response at 1.
    rewrite OLM_out_of_scope by exact Hrl.
    fold (convert_exception_to_response
            (convert_exception_to_response (RolepermissionMiddleware g)) request w2).
    rewrite convert_idem. apply convert_role_gate_eq. }
  eexists. split; [| split].
  2:{ destruct (allowed (Time.hour (Time.fields_at (utcoffset (clock w (ticks w + 1)%nat))
                                      (clock w (ticks w + 1)%nat)))) eqn:Ha.
      - destruct (Py.startswith_any (path request) PROTECTED_PREFIXES
                  && negb (is_allowed (user request))) eqn:Hrole.
        + right. eexists. split; [| intros g; rewrite chain_after_time_gate; cbv zeta;
                                    rewrite Ha, Hstep; reflexivity].
          reflexivity.
        + left. intros g. rewrite chain_after_time_gate. cbv zeta.
          rewrite Ha, Hstep. reflexivity.
      - right. eexists. split; [| intros g; rewrite chain_after_time_gate; cbv zeta;
                                  rewrite Ha; reflexivity].
        reflexivity. }
  - reflexivity.
  - intros e w'' Hr. destruct (chain_returns utcoffset view_ok request w) as [response Hx].
    rewrite (Hr view_ok) in Hx. discriminate Hx.
Qed.

Lemma chain_out_of_scope_skips_store_witness :
  exists w',
    cache w' = cache (world_at tt ten_am) /\
    (hands_on (chain (fun _ => 0)) get_send (world_at tt ten_am) w' \/
     exists response,
       status_code response = 403 /\
       rejects (chain (fun _ => 0)) get_send (world_at tt ten_am) response w') /\
    forall e w'', ~ raises (chain (fun _ => 0)) get_send (world_at tt ten_am) e w''.
Proof.
  apply (chain_out_of_scope_skips_store (fun _ => 0) get_send (world_at tt ten_am)).
  left. discriminate.
Defined.

(** ** The time gate and the time of day *)

Lemma hour_of_fields (offset t : Z) :
  Time.hour (Time.fields_at offset t) = (((t + offset) / 1000000) mod 86400) / 3600.
Proof.
  unfold Time.fields_at. destruct (Time.civil_from_days _) as [[y m] d]. reflexivity.
Qed.

Lemma time_gate_cases {St} (utcoffset : Z -> Z) (request : Request) (w : World St) :
  let now := clock w (ticks w) in
  let closed :=
    HttpResponseForbidden "Chat is closed. Please come back during allowed hours." in
  (forwards (RestrictAccessByTimeMiddleware utcoffset) request w (tick w)
   <-> allowed (Time.hour (Time.fields_at (utcoffset now) now)) = true) /\
  (rejects (RestrictAccessByTimeMiddleware utcoffset) request w closed (tick w)
   <-> allowed (Time.hour (Time.fields_at (utcoffset now) now)) = false).
Proof.
  cbv zeta.
  destruct (allowed _) eqn:Ha.
  - assert (Hf : forwards (RestrictAccessByTimeMiddleware utcoffset) request w (tick w))
      by (intros g; rewrite time_gate_eq; cbv zeta; rewrite Ha; reflexivity).
    split; split; auto; [| discriminate].
    intros Hr. exfalso. exact (forwards_not_rejects _ _ _ _ _ _ Hf Hr).
  - assert (Hr : rejects (RestrictAccessByTimeMiddleware utcoffset) request w
                   (HttpResponseForbidden
                      "Chat is closed. Please come back during allowed hours.") (tick w))
      by (intros g; rewrite time_gate_eq; cbv zeta; rewrite Ha; reflexivity).
    split; split; auto; [| discriminate].
    intros Hf. exfalso. exact (forwards_not_rejects _ _ _ _ _ _ Hf Hr).
Qed.

(** X9. The time gate reads the instant only through the local time of
    day: it lets a request through exactly when the local second of the
    day lies from 06:00:00 up to, not including, 21:00:00, and answers
    403 before and after; at a fixed UTC offset the hour it compares is
    the same one day later. *)
Theorem time_gate_local_time_of_day {St} (utcoffset : Z -> Z) (request : Request)
  (w : World St) :
  let now := clock w (ticks w) in
  let second_of_day := ((now + utcoffset now) / 1000000) mod 86400 in
  let closed :=
    HttpResponseForbidden "Chat is closed. Please come back during allowed hours." in
  (forwards (RestrictAccessByTimeMiddleware utcoffset) request w (tick w)
   <-> 6 * 3600 <= second_of_day < 21 * 3600) /\
  (rejects (RestrictAccessByTimeMiddleware utcoffset) request w closed (tick w)
   <-> second_of_day < 6 * 3600 \/ 21 * 3600 <= second_of_day) /\
  (forall offset t,
     Time.hour (Time.fields_at offset (t + Time.timedelta 86400))
     = Time.hour (Time.fields_at offset t)).
Proof.
  cbv zeta.
  destruct (time_gate_cases utcoffset request w) as [Hf Hr]. cbv zeta in Hf, Hr.
  rewrite Hf, Hr. rewrite hour_of_fields.
  set (sod := ((clock w (ticks w) + utcoffset (clock w (ticks w))) / 1000000) mod 86400).
  assert (Hdiv : 6 <= sod / 3600 < 21 <-> 6 * 3600 <= sod < 21 * 3600).
  { pose proof (Z.div_mod sod 3600 ltac:(lia)) as Hdm.
    pose proof (Z.mod_pos_bound sod 3600 ltac:(lia)) as Hmb. lia. }
  split; [| split].
  - rewrite allowed_spec. exact Hdiv.
  - rewrite <- not_true_iff_false, allowed_spec, Hdiv. lia.
  - intros offset t. rewrite !hour_of_fields. unfold Time.timedelta.
    replace (t + 86400 * 1000000 + offset) with (t + offset + 86400 * 1000000) by lia.
    rewrite Z.div_add by lia. rewrite Z.add_mod by lia.
    rewrite Z.mod_same by lia. rewrite Z.add_0_r, Z.mod_mod by lia. reflexivity.
Qed.

(** ** The log over a run of requests *)

(** X10. Over requests served one after the other the log grows by one
    line per request, in the order of the requests and whatever each
    gate decided: the lines added carry the user and the path of their
    request, there are as many as requests, earlier lines stay, and the
    file and the console receive the same lines. The rest of the chain
    is any handler that does not write to this logger. *)
Theorem log_has_one_line_per_request {St} `{BaseCache St} `{ErrorPages} (utcoffset : Z -> Z)
  (get_response : @Handler St) (requests : list Request) (w : World St) :
  leaves_log get_response ->
  exists lines,
    Forall2 (fun request line =>
               exists t, line = Time.strftime t "%Y-%m-%d %H:%M:%S"
                                +:+ " - User: " +:+ log_user request
                                +:+ " - Path: " +:+ path request)
            requests lines /\
    length lines = length requests /\
    request_file (serve_end (chain utcoffset get_response) requests w)
      = request_file w ++ lines /\
    console (serve_end (chain utcoffset get_response) requests w) = console w ++ lines.
Proof.
  intros Hg. revert w. induction requests as [| r rs IH]; intros w.
  - exists []. cbn. rewrite !app_nil_r. repeat split. constructor.
  - cbn [serve_end fold_left].
    pose proof (time_gate_leaves_log utcoffset _
                  (convert_leaves_log _
                     (rate_limiter_leaves_log _
                        (convert_leaves_log _ (role_gate_leaves_log _ Hg))))) as Hrest.
    set (w1 := snd (chain utcoffset get_response r w)).
    assert (Hw1 : exists t,
               request_file w1 = request_file w ++
                 [Time.strftime t "%Y-%m-%d %H:%M:%S" +:+ " - User: " +:+ log_user r
                  +:+ " - Path: " +:+ path r] /\
               console w1 = console w ++
                 [Time.strftime t "%Y-%m-%d %H:%M:%S" +:+ " - User: " +:+ log_user r
                  +:+ " - Path: " +:+ path r]).
    { exists (clock w (ticks w)). subst w1. rewrite chain_eq, logging_eq. cbv zeta.
      match goal with
      | |- context [RestrictAccessByTimeMiddleware _ _ _ ?v] =>
          destruct (Hrest r v) as [Hf Hc]
      end.
      rewrite Hf, Hc. split; reflexivity. }
    destruct Hw1 as (t & Hf1 & Hc1).
    destruct (IH w1) as (lines & Hall & Hlen & Hf & Hc).
    fold (serve_end (chain utcoffset get_response) rs w1).
    eexists (_ :: lines). split; [| split; [| split]].
    + constructor; [exists t; reflexivity | exact Hall].
    + cbn [length]. rewrite Hlen. reflexivity.
    + rewrite Hf, Hf1, <- app_assoc. reflexivity.
    + rewrite Hc, Hc1, <- app_assoc. reflexivity.
Qed.

Lemma log_has_one_line_per_request_witness :
  exists lines,
    length lines = 3%nat /\
    request_file (serve_end (chain (fun _ => 0) view_ok) [post_send; get_send; post_send]
                    (world_at (∅ : Store) ten_pm)) = [] ++ lines.
Proof.
  destruct (log_has_one_line_per_request (fun _ => 0) view_ok
              [post_send; get_send; post_send] (world_at (∅ : Store) ten_pm))
    as (lines & _ & Hlen & Hf & _).
  - intros request w. split; reflexivity.
  - exists lines. split; [exact Hlen | exact Hf].
Defined.

